(** * mongorunway: migration domain model, read-model projection, checksum
    service, business-rule pass and filename strategies.

    The Python objects that the code mutates (migrations, mappings) live in
    a store indexed by references; methods are computations in a small
    state-and-exception monad over that store. *)

From Stdlib Require Import ZArith List Ascii String Lia.
From Stdlib Require Import Strings.Byte.
From stdpp Require Import gmap strings list pretty.

Local Open Scope string_scope.
Local Open Scope list_scope.
Local Open Scope Z_scope.

(** ** Python values, exceptions and results *)

(** The values a persisted document can hold (typing.Any, as far as the
    migration documents use it). *)
Inductive value : Type :=
  | VNone
  | VBool (b : bool)
  | VInt (z : Z)
  | VStr (s : string).

Inductive exn : Type :=
  | TypeError
  | AttributeError
  | FileNotFoundError
  | UnicodeDecodeError
  | UnicodeEncodeError
  | ClientError (msg : string).

Inductive result (A : Type) : Type :=
  | Ok (a : A)
  | Raise (e : exn).
Arguments Ok {A} a.
Arguments Raise {A} e.

(** References to Python objects. *)
Definition loc := positive.

(** Events observable from outside the domain objects: a rule's
    check_is_broken called on the client, a command executed. Rules and
    commands are identified by their position in the owning sequence. *)
Inductive Event : Type :=
  | EvCheckIsBroken (position : nat)
  | EvExecute (position : nat).

#[global] Instance Event_eq_dec : EqDecision Event.
Proof. solve_decision. Defined.

(** How often check_is_broken was called on the rule at a position. *)
Definition invocations (position : nat) (trace : list Event) : nat :=
  length (filter (fun e => e = EvCheckIsBroken position) trace).

Section Domain.

Variables (Command Rule : Type).

(** class MigrationProcess (mongorunway/domain/migration.py). *)
Record MigrationProcess : Type := mkProcess {
  proc_rules : list Rule;
  proc_name : string;
  proc_commands : list Command;
  proc_migration_version : Z
}.

(** MigrationProcess.__init__: the rule list starts empty. *)
Definition new_process (commands : list Command) (migration_version : Z) (name : string)
  : MigrationProcess :=
  mkProcess [] name commands migration_version.

Definition has_rules (self : MigrationProcess) : bool :=
  match proc_rules self with [] => false | _ :: _ => true end.

Definition add_rule (self : MigrationProcess) (rule : Rule) : MigrationProcess :=
  mkProcess (proc_rules self ++ [rule]) (proc_name self) (proc_commands self)
            (proc_migration_version self).

(** class Migration: the seven slots. *)
Record Migration : Type := mkMigration {
  name : string;
  version : Z;
  checksum : string;
  is_applied : bool;
  description : string;
  upgrade_process : MigrationProcess;
  downgrade_process : MigrationProcess
}.

(** dataclass MigrationReadModel. The generated __init__ stores whatever it
    is given, so the fields hold arbitrary values. *)
Record MigrationReadModel : Type := mkReadModel {
  rm_name : value;
  rm_version : value;
  rm_checksum : value;
  rm_description : value;
  rm_is_applied : value
}.

Inductive object : Type :=
  | ODict (d : gmap string value)
  | OMigration (m : Migration).

(** The store: the objects, the files on disk, and the trace of calls made
    on rules and commands. *)
Record World : Type := mkWorld {
  heap : gmap loc object;
  files : gmap string (list byte);
  events : list Event
}.

Definition M (A : Type) : Type := World -> result A * World.

Definition ret {A} (a : A) : M A := fun w => (Ok a, w).

Definition raise {A} (e : exn) : M A := fun w => (Raise e, w).

(** An exception stops the computation; what was mutated stays mutated. *)
Definition bind {A B} (m : M A) (k : A -> M B) : M B :=
  fun w => match m w with
           | (Ok a, w') => k a w'
           | (Raise e, w') => (Raise e, w')
           end.

Definition set_heap (h : gmap loc object) (w : World) : World :=
  mkWorld h (files w) (events w).

Definition add_events (trace : list Event) (w : World) : World :=
  mkWorld (heap w) (files w) (events w ++ trace).

Definition emit (e : Event) : M unit :=
  fun w => (Ok tt, add_events [e] w).

Definition alloc (o : object) : M loc :=
  fun w => let l := fresh (dom (heap w)) in (Ok l, set_heap (<[l := o]> (heap w)) w).

Definition load_migration (l : loc) : M Migration :=
  fun w => match heap w !! l with
           | Some (OMigration m) => (Ok m, w)
           | _ => (Raise AttributeError, w)
           end.

Definition load_dict (l : loc) : M (gmap string value) :=
  fun w => match heap w !! l with
           | Some (ODict d) => (Ok d, w)
           | _ => (Raise AttributeError, w)
           end.

Definition store (l : loc) (o : object) : M unit :=
  fun w => (Ok tt, set_heap (<[l := o]> (heap w)) w).

End Domain.

Arguments mkProcess {Command Rule}.
Arguments proc_rules {Command Rule}.
Arguments proc_name {Command Rule}.
Arguments proc_commands {Command Rule}.
Arguments proc_migration_version {Command Rule}.
Arguments new_process {Command Rule}.
Arguments has_rules {Command Rule}.
Arguments add_rule {Command Rule}.
Arguments mkMigration {Command Rule}.
Arguments name {Command Rule}.
Arguments version {Command Rule}.
Arguments checksum {Command Rule}.
Arguments is_applied {Command Rule}.
Arguments description {Command Rule}.
Arguments upgrade_process {Command Rule}.
Arguments downgrade_process {Command Rule}.
Arguments ODict {Command Rule}.
Arguments OMigration {Command Rule}.
Arguments mkWorld {Command Rule}.
Arguments heap {Command Rule}.
Arguments files {Command Rule}.
Arguments events {Command Rule}.
Arguments ret {Command Rule A}.
Arguments raise {Command Rule A}.
Arguments bind {Command Rule A B}.
Arguments set_heap {Command Rule}.
Arguments add_events {Command Rule}.
Arguments emit {Command Rule}.
Arguments alloc {Command Rule}.
Arguments load_migration {Command Rule}.
Arguments load_dict {Command Rule}.
Arguments store {Command Rule}.

Notation "'let*' x ':=' m 'in' k" := (bind m (fun x => k))
  (at level 10, x name, m at level 100, k at level 200).

Section MigrationMethods.

Context {Command Rule : Type}.

Local Abbreviation M := (M Command Rule).

(** Migration.set_is_applied: self._is_applied = value. *)
Definition set_is_applied (self : loc) (value : bool) : M unit :=
  let* m := load_migration self in
  store self (OMigration (mkMigration (name m) (version m) (checksum m) value
                            (description m) (upgrade_process m) (downgrade_process m))).

(** dict.__setitem__ on a mapping object. *)
Definition setitem (mapping : loc) (key : string) (v : value) : M unit :=
  let* d := load_dict mapping in
  store mapping (ODict (<[key := v]> d)).

(** Migration.to_dict. *)
Definition to_dict (self : loc) (unique : bool) : M loc :=
  let* m := load_migration self in
  let* mapping := alloc (ODict (<["name" := VStr (name m)]>
                               (<["version" := VInt (version m)]>
                               (<["checksum" := VStr (checksum m)]>
                               (<["is_applied" := VBool (is_applied m)]>
                               (<["description" := VStr (description m)]> ∅)))))) in
  let* _ := (if unique then setitem mapping "_id" (VInt (version m)) else ret tt) in
  ret mapping.

(** dict.pop(key, None): the key is removed when present, and no error is
    raised when it is absent. *)
Definition pop_default (mapping : loc) (key : string) : M value :=
  let* d := load_dict mapping in
  let* _ := store mapping (ODict (delete key d)) in
  ret (default VNone (d !! key)).

Definition read_model_fields : gset string :=
  {[ "name"; "version"; "checksum"; "description"; "is_applied" ]}.

(** The dataclass constructor called with the mapping's items as keyword
    arguments: every field is a required keyword, and
    a keyword that is no field is refused; both are a TypeError. *)
Definition construct_read_model (d : gmap string value) : result MigrationReadModel :=
  match d !! "name", d !! "version", d !! "checksum", d !! "description",
        d !! "is_applied" with
  | Some n, Some v, Some c, Some de, Some a =>
      if bool_decide (dom d ⊆ read_model_fields)
      then Ok (mkReadModel n v c de a)
      else Raise TypeError
  | _, _, _, _, _ => Raise TypeError
  end.

(** MigrationReadModel.from_dict. *)
Definition from_dict (mapping : loc) : M MigrationReadModel :=
  let* _ := pop_default mapping "_id" in
  let* d := load_dict mapping in
  fun w => (construct_read_model d, w).

(** MigrationReadModel.from_migration. *)
Definition from_migration (migration : loc) : M MigrationReadModel :=
  let* m := load_migration migration in
  ret (mkReadModel (VStr (name m)) (VInt (version m)) (VStr (checksum m))
                   (VStr (description m)) (VBool (is_applied m))).

End MigrationMethods.

(** ** Text files as Python reads them *)

(** A Python str is a sequence of code points. *)
Definition text := list Z.

Definition byte_to_Z (b : byte) : Z := Z.of_N (Byte.to_N b).

Definition is_continuation (b : Z) : bool := (0x80 <=? b) && (b <=? 0xBF).

(** Bounds of the second byte of a three-byte and of a four-byte sequence:
    overlong forms, surrogates and code points above 0x10FFFF are refused. *)
Definition second_lo (b0 : Z) : Z :=
  if b0 =? 0xE0 then 0xA0 else if b0 =? 0xF0 then 0x90 else 0x80.

Definition second_hi (b0 : Z) : Z :=
  if b0 =? 0xED then 0x9F else if b0 =? 0xF4 then 0x8F else 0xBF.

(** bytes.decode, strict UTF-8: the codec a text-mode open() uses where
    UTF-8 is the platform encoding. *)
Fixpoint utf8_decode (bs : list Z) : option text :=
  match bs with
  | [] => Some []
  | b0 :: r0 =>
    if (0 <=? b0) && (b0 <? 0x80) then
      cons b0 <$> utf8_decode r0
    else if (0xC2 <=? b0) && (b0 <=? 0xDF) then
      match r0 with
      | b1 :: r1 =>
        if is_continuation b1
        then cons ((b0 - 0xC0) * 64 + (b1 - 0x80)) <$> utf8_decode r1
        else None
      | _ => None
      end
    else if (0xE0 <=? b0) && (b0 <=? 0xEF) then
      match r0 with
      | b1 :: b2 :: r2 =>
        if (second_lo b0 <=? b1) && (b1 <=? second_hi b0) && is_continuation b2
        then cons ((b0 - 0xE0) * 4096 + (b1 - 0x80) * 64 + (b2 - 0x80))
               <$> utf8_decode r2
        else None
      | _ => None
      end
    else if (0xF0 <=? b0) && (b0 <=? 0xF4) then
      match r0 with
      | b1 :: b2 :: b3 :: r3 =>
        if (second_lo b0 <=? b1) && (b1 <=? second_hi b0)
           && is_continuation b2 && is_continuation b3
        then cons ((b0 - 0xF0) * 262144 + (b1 - 0x80) * 4096
                   + (b2 - 0x80) * 64 + (b3 - 0x80))
               <$> utf8_decode r3
        else None
      | _ => None
      end
    else None
  end.

(** Text mode with newline=None: on input, "\r\n" and a lone "\r" are both
    read as "\n". *)
Fixpoint universal_newlines (s : text) : text :=
  match s with
  | [] => []
  | c :: r =>
    if c =? 13 then
      match r with
      | c' :: r' => if c' =? 10 then 10 :: universal_newlines r'
                    else 10 :: universal_newlines r
      | [] => [10]
      end
    else c :: universal_newlines r
  end.

(** f.read() on a file opened with mode "r". *)
Definition read_text (content : list byte) : option text :=
  universal_newlines <$> utf8_decode (map byte_to_Z content).

(** The code points a str read from a file can hold: no surrogates, nothing
    above 0x10FFFF. *)
Definition unicode_scalar (c : Z) : Prop :=
  0 <= c < 0xD800 \/ 0xE000 <= c < 0x110000.

(** str.encode() of one code point: UTF-8, surrogates refused. *)
Definition utf8_encode_char (c : Z) : option (list Z) :=
  if c <? 0 then None
  else if c <? 0x80 then Some [c]
  else if c <? 0x800 then Some [0xC0 + c / 64; 0x80 + c mod 64]
  else if (0xD800 <=? c) && (c <=? 0xDFFF) then None
  else if c <? 0x10000 then
    Some [0xE0 + c / 4096; 0x80 + (c / 64) mod 64; 0x80 + c mod 64]
  else if c <? 0x110000 then
    Some [0xF0 + c / 262144; 0x80 + (c / 4096) mod 64;
          0x80 + (c / 64) mod 64; 0x80 + c mod 64]
  else None.

Fixpoint utf8_encode (s : text) : option (list Z) :=
  match s with
  | [] => Some []
  | c :: r =>
    match utf8_encode_char c, utf8_encode r with
    | Some bs, Some rest => Some (bs ++ rest)
    | _, _ => None
    end
  end.

(** ** hashlib.md5 (RFC 1321) on 32-bit words kept in Z *)

Definition wrap32 (x : Z) : Z := x mod 2 ^ 32.

Definition not32 (x : Z) : Z := Z.lxor x 0xffffffff.

Definition rotl32 (x n : Z) : Z :=
  wrap32 (Z.lor (Z.shiftl x n) (Z.shiftr x (32 - n))).

Definition md5_K : list Z :=
  [ 0xd76aa478; 0xe8c7b756; 0x242070db; 0xc1bdceee;
    0xf57c0faf; 0x4787c62a; 0xa8304613; 0xfd469501;
    0x698098d8; 0x8b44f7af; 0xffff5bb1; 0x895cd7be;
    0x6b901122; 0xfd987193; 0xa679438e; 0x49b40821;
    0xf61e2562; 0xc040b340; 0x265e5a51; 0xe9b6c7aa;
    0xd62f105d; 0x02441453; 0xd8a1e681; 0xe7d3fbc8;
    0x21e1cde6; 0xc33707d6; 0xf4d50d87; 0x455a14ed;
    0xa9e3e905; 0xfcefa3f8; 0x676f02d9; 0x8d2a4c8a;
    0xfffa3942; 0x8771f681; 0x6d9d6122; 0xfde5380c;
    0xa4beea44; 0x4bdecfa9; 0xf6bb4b60; 0xbebfbc70;
    0x289b7ec6; 0xeaa127fa; 0xd4ef3085; 0x04881d05;
    0xd9d4d039; 0xe6db99e5; 0x1fa27cf8; 0xc4ac5665;
    0xf4292244; 0x432aff97; 0xab9423a7; 0xfc93a039;
    0x655b59c3; 0x8f0ccc92; 0xffeff47d; 0x85845dd1;
    0x6fa87e4f; 0xfe2ce6e0; 0xa3014314; 0x4e0811a1;
    0xf7537e82; 0xbd3af235; 0x2ad7d2bb; 0xeb86d391 ].

Definition md5_S : list Z :=
  [ 7; 12; 17; 22; 7; 12; 17; 22; 7; 12; 17; 22; 7; 12; 17; 22;
    5; 9; 14; 20; 5; 9; 14; 20; 5; 9; 14; 20; 5; 9; 14; 20;
    4; 11; 16; 23; 4; 11; 16; 23; 4; 11; 16; 23; 4; 11; 16; 23;
    6; 10; 15; 21; 6; 10; 15; 21; 6; 10; 15; 21; 6; 10; 15; 21 ].

Definition md5_state : Type := (Z * Z * Z * Z)%type.

Definition md5_init : md5_state :=
  (0x67452301, 0xefcdab89, 0x98badcfe, 0x10325476).

(** One of the 64 operations of a block. *)
Definition md5_step (block : list Z) (st : md5_state) (i : nat) : md5_state :=
  let '(a, b, c, d) := st in
  let '(f, g) :=
    if (i <? 16)%nat then
      (Z.lor (Z.land b c) (Z.land (not32 b) d), i)
    else if (i <? 32)%nat then
      (Z.lor (Z.land d b) (Z.land (not32 d) c), ((5 * i + 1) mod 16)%nat)
    else if (i <? 48)%nat then
      (Z.lxor b (Z.lxor c d), ((3 * i + 5) mod 16)%nat)
    else
      (Z.lxor c (Z.lor b (not32 d)), ((7 * i) mod 16)%nat) in
  let f' := wrap32 (f + a + nth i md5_K 0 + nth g block 0) in
  (d, wrap32 (b + rotl32 f' (nth i md5_S 0)), b, c).

(** Little-endian: a number as k octets, and octets as a number. *)
Fixpoint le_bytes (k : nat) (x : Z) : list Z :=
  match k with
  | O => []
  | S k' => x mod 256 :: le_bytes k' (x / 256)
  end.

Fixpoint le_word (bs : list Z) : Z :=
  match bs with
  | [] => 0
  | b :: r => b + 256 * le_word r
  end.

Fixpoint le_words (n : nat) (bs : list Z) : list Z :=
  match n with
  | O => []
  | S n' => le_word (take 4 bs) :: le_words n' (drop 4 bs)
  end.

Definition md5_block (st : md5_state) (chunk : list Z) : md5_state :=
  let '(a0, b0, c0, d0) := st in
  let '(a, b, c, d) := fold_left (md5_step (le_words 16 chunk)) (seq 0 64) st in
  (wrap32 (a0 + a), wrap32 (b0 + b), wrap32 (c0 + c), wrap32 (d0 + d)).

Fixpoint md5_blocks (n : nat) (st : md5_state) (bs : list Z) : md5_state :=
  match n with
  | O => st
  | S n' => md5_blocks n' (md5_block st (take 64 bs)) (drop 64 bs)
  end.

Definition md5_pad (msg : list Z) : list Z :=
  let n := Z.of_nat (length msg) in
  msg ++ [0x80] ++ repeat 0 (Z.to_nat ((55 - n) mod 64))
      ++ le_bytes 8 ((8 * n) mod 2 ^ 64).

(** hashlib.md5(data).digest(): sixteen octets. *)
Definition md5_digest (msg : list Z) : list Z :=
  let padded := md5_pad msg in
  let '(a, b, c, d) := md5_blocks (length padded / 64) md5_init padded in
  le_bytes 4 a ++ le_bytes 4 b ++ le_bytes 4 c ++ le_bytes 4 d.

Definition hex_digit (n : Z) : ascii :=
  nth (Z.to_nat n) (list_ascii_of_string "0123456789abcdef") "0"%char.

Definition is_hex_digit (c : ascii) : bool :=
  bool_decide (c ∈ list_ascii_of_string "0123456789abcdef").

Fixpoint hex_of_bytes (bs : list Z) : string :=
  match bs with
  | [] => ""
  | b :: r => String (hex_digit ((b mod 256) / 16))
                (String (hex_digit (b mod 16)) (hex_of_bytes r))
  end.

Fixpoint all_hex (s : string) : bool :=
  match s with
  | EmptyString => true
  | String c r => is_hex_digit c && all_hex r
  end.

(** hashlib.md5(data).hexdigest(). *)
Definition md5_hexdigest (msg : list Z) : string := hex_of_bytes (md5_digest msg).

(** ** Checksum service *)

(** MigrationModule, as far as the checksum service uses it: the path of
    the module's backing file. *)
Record MigrationModule : Type := mkModule { location : string }.

Section ChecksumService.

Context {Command Rule : Type}.

(** calculate_migration_checksum
    (mongorunway/kernel/application/services/checksum_service.py). The store
    holds the regular, readable files; a location outside it stands for a
    path that does not exist. What open() raises for a directory or for a
    file it may not read is not represented. *)
Definition calculate_migration_checksum (module : MigrationModule)
  : M Command Rule string :=
  fun w =>
    match files w !! location module with
    | None => (Raise FileNotFoundError, w)
    | Some content =>
      match read_text content with
      | None => (Raise UnicodeDecodeError, w)
      | Some file_data =>
        match utf8_encode file_data with
        | None => (Raise UnicodeEncodeError, w)
        | Some encoded => (Ok (md5_hexdigest encoded), w)
        end
      end
    end.

End ChecksumService.

(** ** Business rules *)

Section BusinessRules.

Variables (Client Command : Type).

(** Modelled from the spec: mongorunway/domain/migration_business_rule.py is
    missing; section 3 of the spec gives a rule its name, the names it
    depends on, the check against the client (which can fail with an error
    of the client) and its diagnostic. *)
Record MigrationBusinessRule : Type := mkRule {
  rule_name : string;
  depends_on : list string;
  check_is_broken : Client -> result bool;
  render_broken_rule : string
}.

(** Modelled from the spec: the default diagnostic of a rule, which the test
    of FakeRule also pins down. *)
Definition default_render (rule_name : string) : string :=
  "Business rule " +:+ rule_name +:+ " is broken.".

(** Modelled from the spec: a rule created with the defaults, no
    dependencies and the default diagnostic. *)
Definition new_rule (rule_name : string) (check : Client -> result bool)
  : MigrationBusinessRule :=
  mkRule rule_name [] check (default_render rule_name).

(** Modelled from the spec: a dependency name is unmet when no rule of that
    name was evaluated earlier in the pass, or when the name was marked
    broken. *)
Definition unmet (evaluated broken : gset string) (dependency : string) : bool :=
  negb (bool_decide (dependency ∈ evaluated)) || bool_decide (dependency ∈ broken).

(** Modelled from the spec: the rule-evaluation pass of section 4.2, which is
    missing from the sources. Rules are taken in sequence order; a rule with
    an unmet dependency is broken without its check being called; otherwise
    the check is called on the client, and an error it raises ends the pass.
    The result lists the positions of the broken rules, in order. *)
Fixpoint evaluate_rules (client : Client) (rules : list MigrationBusinessRule)
    (position : nat) (evaluated broken : gset string)
  : M Command MigrationBusinessRule (list nat) :=
  match rules with
  | [] => ret []
  | rule :: rest =>
    let* is_broken :=
      (if existsb (unmet evaluated broken) (depends_on rule)
       then ret true
       else let* _ := emit (EvCheckIsBroken position) in
            fun w => (check_is_broken rule client, w)) in
    let* later :=
      evaluate_rules client rest (S position)
        ({[rule_name rule]} ∪ evaluated)
        (if is_broken then {[rule_name rule]} ∪ broken else broken) in
    ret (if is_broken then position :: later else later)
  end.

(** A dependency name of the rule at position i that no earlier rule of the
    sequence carries. *)
Definition unresolved (rules : list MigrationBusinessRule) (i : nat) (d : string) : Prop :=
  forall j r, (j < i)%nat -> rules !! j = Some r -> rule_name r <> d.

(** A dependency name of the rule at position i that an earlier rule
    carries which the pass marked broken. *)
Definition resolves_to_broken (rules : list MigrationBusinessRule) (marked : list nat)
    (i : nat) (d : string) : Prop :=
  exists j r, (j < i)%nat /\ rules !! j = Some r /\ rule_name r = d /\ j ∈ marked.

Inductive Verdict : Type :=
  | ClearToProceed
  | BrokenRules (diagnostics : list string).

(** Modelled from the spec: the engine's decision on a process. Without
    rules the pass is skipped; with rules, the diagnostics of the broken
    ones are reported in order. *)
Definition evaluate_process (client : Client)
    (process : MigrationProcess Command MigrationBusinessRule)
  : M Command MigrationBusinessRule Verdict :=
  if has_rules process then
    let* marked := evaluate_rules client (proc_rules process) 0%nat ∅ ∅ in
    match marked with
    | [] => ret ClearToProceed
    | _ :: _ =>
      ret (BrokenRules
             (omap (fun i => render_broken_rule <$> proc_rules process !! i) marked))
    end
  else ret ClearToProceed.

End BusinessRules.

Arguments mkRule {Client}.
Arguments rule_name {Client}.
Arguments depends_on {Client}.
Arguments check_is_broken {Client}.
Arguments render_broken_rule {Client}.
Arguments new_rule {Client}.
Arguments unresolved {Client}.
Arguments resolves_to_broken {Client}.
Arguments evaluate_rules {Client Command}.
Arguments evaluate_process {Client Command}.

(** ** Filename strategies *)

Definition is_digit (c : ascii) : bool :=
  (48 <=? nat_of_ascii c)%nat && (nat_of_ascii c <=? 57)%nat.

Fixpoint all_digits (s : string) : bool :=
  match s with
  | EmptyString => true
  | String c r => is_digit c && all_digits r
  end.

(** The length of the leading run of digits, and what follows it. *)
Fixpoint leading_digits (s : string) : nat * string :=
  match s with
  | String c r =>
    if is_digit c then let '(n, rest) := leading_digits r in (S n, rest)
    else (O, s)
  | EmptyString => (O, s)
  end.

Fixpoint zeros (n : nat) : string :=
  match n with
  | O => ""
  | S n' => String "0" (zeros n')
  end.

Definition zfill (width : nat) (s : string) : string :=
  zeros (width - String.length s) +:+ s.

(** Python's format(position, "03d"): decimal, sign first, zeros up to a
    total width of three; longer numbers are not cut. *)
Definition format_03d (position : Z) : string :=
  if position <? 0
  then String "-" (zfill 2 (pretty (Z.to_N (- position))))
  else zfill 3 (pretty (Z.to_N position)).

(** Exactly three digits. *)
Definition three_digits (s : string) : bool :=
  match s with
  | String a (String b (String c EmptyString)) => is_digit a && is_digit b && is_digit c
  | _ => false
  end.

(** Modelled from the spec: mongorunway/infrastructure/filename_strategies.py
    is missing; the interface is the one section 4.4 of the spec gives and
    the tests call. *)
Record FilenameStrategy : Type := mkStrategy {
  is_valid_filename : string -> bool;
  transform_migration_filename : string -> Z -> string
}.

(** Modelled from the spec: every filename is valid and none is rewritten. *)
Definition MissingFilenameStrategy : FilenameStrategy :=
  mkStrategy (fun _ => true) (fun filename _ => filename).

(** Modelled from the spec: three digits, then an underscore. *)
Definition numerical_is_valid (filename : string) : bool :=
  match filename with
  | String a (String b (String c (String u _))) =>
    is_digit a && is_digit b && is_digit c && bool_decide (u = "_"%char)
  | _ => false
  end.

(** Modelled from the spec: a valid filename is returned as it is; an
    invalid one gets the position, zero-padded to three digits, and an
    underscore in front. *)
Definition NumericalFilenameStrategy : FilenameStrategy :=
  mkStrategy numerical_is_valid
    (fun filename position =>
       if numerical_is_valid filename then filename
       else format_03d position +:+ "_" +:+ filename).

(** Modelled from the spec: a leading run of at least ten digits, then an
    underscore. *)
Definition unix_is_valid (filename : string) : bool :=
  match leading_digits filename with
  | (n, String u _) => (10 <=? n)%nat && bool_decide (u = "_"%char)
  | _ => false
  end.

(** Modelled from the spec: a valid filename passes through. What an invalid
    one becomes is left to the collaborator that generates the timestamp
    prefix, [stamp]. *)
Definition UnixFilenameStrategy (stamp : string -> Z -> string) : FilenameStrategy :=
  mkStrategy unix_is_valid
    (fun filename position =>
       if unix_is_valid filename then filename else stamp filename position).

Definition bytes_of_string (s : string) : list byte := list_byte_of_string s.

(** ** Sample data: the migration of the spec's end-to-end scenario and a
    few persisted documents. *)

Definition sample_migration : Migration unit unit :=
  mkMigration "create_users" 1 "9d0a2b6c5f4b3f0a6d1b7cbb0a4b6d3e" false "create users"
    (new_process [] 1 "upgrade") (new_process [] 1 "downgrade").

Definition sample_record : gmap string value :=
  <["_id" := VInt 1]> (<["name" := VStr "create_users"]> (<["version" := VInt 1]>
  (<["checksum" := VStr "9d0a2b6c5f4b3f0a6d1b7cbb0a4b6d3e"]>
  (<["description" := VStr "create users"]> (<["is_applied" := VBool true]> ∅))))).

(** Object 1 is the migration, 2 a full record, 3 a record without its
    checksum, 4 a record with a field the read model does not have. *)
Definition sample_world : World unit unit :=
  mkWorld
    (<[1%positive := OMigration sample_migration]>
    (<[2%positive := ODict sample_record]>
    (<[3%positive := ODict (delete "checksum" sample_record)]>
    (<[4%positive := ODict (<["applied_at" := VInt 1700000000]> sample_record)]> ∅))))
    ∅ [].

(** ** Utilities (mongorunway/kernel/util.py) *)

Definition slash : ascii := ascii_of_nat 47.
Definition backslash : ascii := ascii_of_nat 92.
Definition dot : ascii := ascii_of_nat 46.

(** str.startswith and str.endswith. *)
Fixpoint startswith (s prefix : string) : bool :=
  match prefix, s with
  | EmptyString, _ => true
  | String p ps, String c cs => bool_decide (p = c) && startswith cs ps
  | String _ _, EmptyString => false
  end.

Fixpoint endswith (s suffix : string) : bool :=
  bool_decide (s = suffix)
  || match s with
     | String _ r => endswith r suffix
     | EmptyString => false
     end.

Fixpoint contains_char (c : ascii) (s : string) : bool :=
  match s with
  | EmptyString => false
  | String x r => bool_decide (x = c) || contains_char c r
  end.

(** str.rstrip(chars): the trailing characters that belong to chars are
    removed, one by one. *)
Fixpoint rstrip (chars s : string) : string :=
  match s with
  | EmptyString => EmptyString
  | String c r =>
    match rstrip chars r with
    | EmptyString => if contains_char c chars then EmptyString else String c EmptyString
    | String _ _ as r' => String c r'
    end
  end.

(** s[:-1]. *)
Fixpoint drop_last (s : string) : string :=
  match s with
  | EmptyString => EmptyString
  | String c EmptyString => EmptyString
  | String c r => String c (drop_last r)
  end.

(** str.replace(old, new) for a non-empty old: occurrences are replaced
    from left to right and do not overlap; skip counts the characters of an
    occurrence still to be passed over. *)
Fixpoint replace_from (old new : string) (skip : nat) (s : string) : string :=
  match s with
  | EmptyString => EmptyString
  | String c r =>
    match skip with
    | S k => replace_from old new k r
    | O =>
      if startswith s old
      then new +:+ replace_from old new (String.length old - 1) r
      else String c (replace_from old new 0 r)
    end
  end.

(** With an empty old, new is put before every character and at the end. *)
Fixpoint interleave (new s : string) : string :=
  match s with
  | EmptyString => new
  | String c r => new +:+ String c (interleave new r)
  end.

Definition replace (old new s : string) : string :=
  match old with
  | EmptyString => interleave new s
  | String _ _ => replace_from old new 0 s
  end.

(** replace_slashes_with_dot. The third pattern is two backslashes, the
    fourth a single one. *)
Definition replace_slashes_with_dot (string_to_replace : string) : string :=
  let string_to_replace :=
    replace (String backslash EmptyString) "."
      (replace (String backslash (String backslash EmptyString)) "."
         (replace "/" "." (replace "//" "." string_to_replace))) in
  if endswith string_to_replace "." then drop_last string_to_replace
  else string_to_replace.

(** os.path.join of two components, POSIX flavour. *)
Definition path_join (a b : string) : string :=
  if startswith b "/" then b
  else if bool_decide (a = EmptyString) || endswith a "/" then a +:+ b
  else a +:+ "/" +:+ b.

(** str.rsplit(sep, maxsplit=1) for a one-character separator: the text
    before the last separator and the text after it, or nothing when the
    separator does not occur (the list then has the single element s). *)
Fixpoint rsplit1 (sep : ascii) (s : string) : option (string * string) :=
  match s with
  | EmptyString => None
  | String c r =>
    match rsplit1 sep r with
    | Some (before, after) => Some (String c before, after)
    | None => if bool_decide (c = sep) then Some (EmptyString, r) else None
    end
  end.

(** The last character of a string, and whether it belongs to chars. *)
Fixpoint last_char (s : string) : option ascii :=
  match s with
  | EmptyString => None
  | String c EmptyString => Some c
  | String _ r => last_char r
  end.

Definition ends_in (chars s : string) : bool :=
  match last_char s with
  | Some c => contains_char c chars
  | None => false
  end.

Fixpoint all_in (chars s : string) : bool :=
  match s with
  | EmptyString => true
  | String c r => contains_char c chars && all_in chars r
  end.

(** The components of a path put together with a separator between them. *)
Fixpoint join_with (sep : string) (parts : list string) : string :=
  match parts with
  | [] => EmptyString
  | [part] => part
  | part :: rest => part +:+ sep +:+ join_with sep rest
  end.

(** A path component: not empty, and free of slashes and backslashes. *)
Definition component (part : string) : Prop :=
  part <> EmptyString
  /\ contains_char slash part = false /\ contains_char backslash part = false.

(** Whether old occurs somewhere in s. *)
Fixpoint occurs (old s : string) : bool :=
  startswith s old
  || match s with
     | String _ r => occurs old r
     | EmptyString => false
     end.

(** What importing can end in: the ValueError of an unpacking or of an
    empty module name, a module that is not found, an attribute that is
    missing, or any other exception, given by its class. *)
Inductive import_exn : Type :=
  | ValueError
  | ModuleNotFoundError (module_name : string)
  | MissingAttribute (attribute : string)
  | OtherException (exception_class : string).

Inductive loaded (A : Type) : Type :=
  | Loaded (a : A)
  | Failed (e : import_exn).
Arguments Loaded {A} a.
Arguments Failed {A} e.

Section Importing.

(** The interpreter's modules: importlib.import_module, getattr on a module
    and the loading of a module from a file each return their result or
    raise; what they raise is passed on unchanged. *)
Variables (Module Attribute : Type).
Variable importlib_import_module : string -> loaded Module.
Variable getattr : Module -> string -> loaded Attribute.
Variable load_from_file : string -> string -> loaded Module.

(** import_module. *)
Definition import_module (module_path : string) (py_file_to_concat : option string)
  : loaded Module :=
  let module_path :=
    match py_file_to_concat with
    | Some file => module_path +:+ "." +:+ rstrip ".py" file
    | None => module_path
    end in
  importlib_import_module module_path.

(** import_class_from_module: unpacking the split into two names fails with
    ValueError when there is one part only. *)
Definition import_class_from_module (class_path : string) : loaded Attribute :=
  match rsplit1 dot class_path with
  | None => Failed ValueError
  | Some (module_name, class_name) =>
    match importlib_import_module module_name with
    | Failed e => Failed e
    | Loaded module => getattr module class_name
    end
  end.

(** get_module. *)
Definition get_module (directory filename : string) : loaded Module :=
  load_from_file (rstrip ".py" filename) (path_join directory filename).

End Importing.

Arguments import_module {Module}.
Arguments import_class_from_module {Module Attribute}.
Arguments get_module {Module}.

Section FileChecks.

Context {Command Rule : Type}.

(** os.path.isfile: the path names a file of the store. *)
Definition isfile (path : string) : M Command Rule bool :=
  fun w => (Ok (bool_decide (is_Some (files w !! path))), w).

(** is_valid_migration_filename; the conjunction stops at its first false
    operand. *)
Definition is_valid_migration_filename (directory filename : string)
  : M Command Rule bool :=
  let* is_file := isfile (path_join directory filename) in
  ret (is_file && endswith filename ".py" && negb (startswith filename "__")).

End FileChecks.

(** A file converted to DOS line endings: a carriage return before every
    line feed. *)
Definition dos_line_endings (content : list byte) : list byte :=
  flat_map (fun b => if Byte.eqb b x0a then [x0d; x0a] else [b]) content.

(** The same conversion on octets and on code points. *)
Definition crlf (s : list Z) : list Z :=
  flat_map (fun c => if c =? 10 then [13; 10] else [c]) s.

Definition without_cr (s : list Z) : list Z :=
  filter (fun c => c <> 13) s.

(** Well-formed UTF-8, as a relation between the octets of one character and
    its code point, and between a sequence of octets and a text. *)
Inductive utf8_char : list Z -> Z -> Prop :=
  | utf8_one b0 :
      0 <= b0 < 0x80 -> utf8_char [b0] b0
  | utf8_two b0 b1 :
      0xC2 <= b0 <= 0xDF -> 0x80 <= b1 <= 0xBF ->
      utf8_char [b0; b1] ((b0 - 0xC0) * 64 + (b1 - 0x80))
  | utf8_three b0 b1 b2 :
      0xE0 <= b0 <= 0xEF -> second_lo b0 <= b1 <= second_hi b0 ->
      0x80 <= b2 <= 0xBF ->
      utf8_char [b0; b1; b2] ((b0 - 0xE0) * 4096 + (b1 - 0x80) * 64 + (b2 - 0x80))
  | utf8_four b0 b1 b2 b3 :
      0xF0 <= b0 <= 0xF4 -> second_lo b0 <= b1 <= second_hi b0 ->
      0x80 <= b2 <= 0xBF -> 0x80 <= b3 <= 0xBF ->
      utf8_char [b0; b1; b2; b3]
        ((b0 - 0xF0) * 262144 + (b1 - 0x80) * 4096 + (b2 - 0x80) * 64 + (b3 - 0x80)).

Inductive utf8_text : list Z -> text -> Prop :=
  | utf8_nil : utf8_text [] []
  | utf8_cons bs c rest t :
      utf8_char bs c -> utf8_text rest t -> utf8_text (bs ++ rest) (c :: t).

(** The rules of the spec's second scenario, R1 broken and R2 depending on
    it, followed by a passing rule and by one naming a rule that is not in
    the sequence. *)
Definition sample_rules : list (MigrationBusinessRule unit) :=
  [ new_rule "R1" (fun _ => Ok true);
    mkRule "R2" ["R1"] (fun _ => Ok false) (default_render "R2");
    new_rule "R3" (fun _ => Ok false);
    mkRule "R4" ["R0"] (fun _ => Ok false) (default_render "R4") ].

Definition sample_process : MigrationProcess unit (MigrationBusinessRule unit) :=
  fold_left add_rule sample_rules (new_process [tt] 1 "upgrade").

Definition empty_world : World unit (MigrationBusinessRule unit) := mkWorld ∅ ∅ [].

(** R1 is broken; R2 depends on R1, and its check would raise if it were
    called. *)
Definition guarded_process : MigrationProcess unit (MigrationBusinessRule unit) :=
  fold_left add_rule
    [ new_rule "R1" (fun _ => Ok true);
      mkRule "R2" ["R1"] (fun _ => Raise (ClientError "connection lost"))
             (default_render "R2") ]
    (new_process [tt] 1 "upgrade").

(** The check of R1 raises; R2 has no dependencies; R3 names a rule that is
    not in the sequence. *)
Definition interrupted_process : MigrationProcess unit (MigrationBusinessRule unit) :=
  fold_left add_rule
    [ new_rule "R1" (fun _ => Raise (ClientError "connection lost"));
      new_rule "R2" (fun _ => Ok false);
      mkRule "R3" ["R0"] (fun _ => Ok false) (default_render "R3") ]
    (new_process [tt] 1 "upgrade").

(** * Properties *)

(** ** The store *)

Section StoreLemmas.

Context {Command Rule : Type}.

Implicit Types (w : World Command Rule) (l self mapping : loc).

Lemma bind_ok {A B} (c : M Command Rule A) (k : A -> M Command Rule B) w a w' :
  c w = (Ok a, w') -> bind c k w = k a w'.
Proof. intros H. unfold bind. by rewrite H. Qed.

Lemma load_migration_ok w l m :
  heap w !! l = Some (OMigration m) -> load_migration l w = (Ok m, w).
Proof. intros H. unfold load_migration. by rewrite H. Qed.

Lemma load_dict_ok w l d :
  heap w !! l = Some (ODict d) -> load_dict l w = (Ok d, w).
Proof. intros H. unfold load_dict. by rewrite H. Qed.

(** What from_dict does to a mapping object: the key "_id" is deleted in the
    store, and the constructor sees what is left. *)
Lemma from_dict_run w mapping d :
  heap w !! mapping = Some (ODict d) ->
  from_dict mapping w =
    (construct_read_model (delete "_id" d),
     set_heap (<[mapping := ODict (delete "_id" d)]> (heap w)) w).
Proof.
  intros H. unfold from_dict, pop_default.
  rewrite (bind_ok _ _ w (default VNone (d !! "_id"))
             (set_heap (<[mapping := ODict (delete "_id" d)]> (heap w)) w)).
  - erewrite bind_ok; [reflexivity |].
    apply load_dict_ok. simpl. apply lookup_insert_eq.
  - erewrite bind_ok; [| by apply load_dict_ok].
    reflexivity.
Qed.

Lemma id_not_field : "_id" ∉ read_model_fields.
Proof.
  unfold read_model_fields. intros H.
  repeat (apply elem_of_union in H as [H | H]);
    apply elem_of_singleton in H; discriminate.
Qed.

Lemma construct_missing (d : gmap string value) k :
  k ∈ read_model_fields -> d !! k = None -> construct_read_model d = Raise TypeError.
Proof.
  unfold read_model_fields. intros Hk Hd.
  unfold construct_read_model.
  repeat (apply elem_of_union in Hk as [Hk | Hk]);
    apply elem_of_singleton in Hk; subst k; rewrite Hd;
    repeat case_match; reflexivity.
Qed.

Lemma construct_surplus (d : gmap string value) k :
  k ∉ read_model_fields -> is_Some (d !! k) -> construct_read_model d = Raise TypeError.
Proof.
  intros Hk Hd. unfold construct_read_model.
  repeat case_match; try reflexivity.
  exfalso. apply Hk.
  match goal with H : bool_decide _ = true |- _ => apply bool_decide_eq_true in H; apply H end.
  by apply elem_of_dom.
Qed.

End StoreLemmas.

(** ** Migration and its read model *)

Section MigrationProperties.

Context {Command Rule : Type}.

Implicit Types (w : World Command Rule) (m : Migration Command Rule).
Implicit Types (self mapping : loc) (d : gmap string value).

(** C1. For a migration m, from_dict applied to the mapping that
    to_dict(unique=True) produced strips the key "_id" and returns a read
    model with the same five fields as from_migration(m). *)
Theorem from_dict_to_dict_roundtrip w self m :
  heap w !! self = Some (OMigration m) ->
  exists mapping w1 w2 rm,
    to_dict self true w = (Ok mapping, w1)
    /\ (exists d, heap w1 !! mapping = Some (ODict d)
                  /\ d !! "_id" = Some (VInt (version m)))
    /\ from_dict mapping w1 = (Ok rm, w2)
    /\ (exists d, heap w2 !! mapping = Some (ODict d) /\ d !! "_id" = None)
    /\ from_migration self w = (Ok rm, w)
    /\ rm = mkReadModel (VStr (name m)) (VInt (version m)) (VStr (checksum m))
                        (VStr (description m)) (VBool (is_applied m)).
Proof.
  intros Hm.
  set (five := (<["name" := VStr (name m)]>
               (<["version" := VInt (version m)]>
               (<["checksum" := VStr (checksum m)]>
               (<["is_applied" := VBool (is_applied m)]>
               (<["description" := VStr (description m)]> ∅))))) : gmap string value).
  set (l := fresh (dom (heap w))).
  set (wa := set_heap (<[l := ODict five]> (heap w)) w).
  set (w1 := set_heap (<[l := ODict (<["_id" := VInt (version m)]> five)]> (heap wa)) wa).
  assert (Hto : to_dict self true w = (Ok l, w1)).
  { unfold to_dict. erewrite bind_ok; [| by apply load_migration_ok].
    erewrite (bind_ok (alloc _)); [| reflexivity].
    fold l five wa.
    erewrite (bind_ok (setitem _ _ _)); [reflexivity |].
    unfold setitem. erewrite bind_ok; [reflexivity |].
    apply load_dict_ok. simpl. apply lookup_insert_eq. }
  assert (H1 : heap w1 !! l = Some (ODict (<["_id" := VInt (version m)]> five))).
  { simpl. apply lookup_insert_eq. }
  assert (Hfive : delete "_id" (<["_id" := VInt (version m)]> five) = five).
  { apply delete_insert_id. reflexivity. }
  exists l, w1, (set_heap (<[l := ODict five]> (heap w1)) w1),
    (mkReadModel (VStr (name m)) (VInt (version m)) (VStr (checksum m))
                 (VStr (description m)) (VBool (is_applied m))).
  split; [exact Hto |].
  split. { eexists. split; [exact H1 |]. apply lookup_insert_eq. }
  split.
  { rewrite (from_dict_run _ _ _ H1), Hfive. reflexivity. }
  split. { exists five. split; [apply lookup_insert_eq | reflexivity]. }
  split; [| reflexivity].
  unfold from_migration. erewrite bind_ok; [| by apply load_migration_ok].
  reflexivity.
Qed.

(** C2. set_is_applied(b) on a migration sets the applied flag of that object
    to b and leaves everything else as it was: its other six fields, every
    other object, the files, and the trace of rule checks and command
    executions. *)
Theorem set_is_applied_only_flag w self m (b : bool) :
  heap w !! self = Some (OMigration m) ->
  exists w' m',
    set_is_applied self b w = (Ok tt, w')
    /\ heap w' !! self = Some (OMigration m')
    /\ is_applied m' = b
    /\ name m' = name m /\ version m' = version m /\ checksum m' = checksum m
    /\ description m' = description m
    /\ upgrade_process m' = upgrade_process m
    /\ downgrade_process m' = downgrade_process m
    /\ (forall l, l <> self -> heap w' !! l = heap w !! l)
    /\ files w' = files w
    /\ events w' = events w.
Proof.
  intros Hm. unfold set_is_applied.
  erewrite bind_ok; [| by apply load_migration_ok].
  unfold store. do 2 eexists.
  split; [reflexivity |].
  split; [simpl; apply lookup_insert_eq |].
  simpl. repeat split.
  intros l Hl. by apply lookup_insert_ne.
Qed.

(** C5. from_dict on a mapping that lacks one of the keys name, version,
    checksum, description, is_applied raises TypeError and builds no read
    model; the key "_id" is deleted before the constructor is called. *)
Theorem from_dict_missing_key w mapping d (k : string) :
  heap w !! mapping = Some (ODict d) ->
  k ∈ read_model_fields ->
  d !! k = None ->
  exists w',
    from_dict mapping w = (Raise TypeError, w')
    /\ construct_read_model (delete "_id" d) = Raise TypeError
    /\ heap w' !! mapping = Some (ODict (delete "_id" d)).
Proof.
  intros Hd Hk Hnone.
  assert (Hc : construct_read_model (delete "_id" d) = Raise TypeError).
  { apply (construct_missing _ k Hk).
    rewrite lookup_delete_ne; [exact Hnone |].
    intros <-. by apply id_not_field. }
  eexists. rewrite (from_dict_run _ _ _ Hd), Hc.
  split; [reflexivity |]. split; [reflexivity |].
  simpl. apply lookup_insert_eq.
Qed.

(** C9. from_dict changes the mapping object it is given: when the mapping
    holds the key "_id", after the call the caller's object no longer holds
    it, whether or not a read model was built. *)
Theorem from_dict_mutates_argument w mapping d (v : value) :
  heap w !! mapping = Some (ODict d) ->
  d !! "_id" = Some v ->
  exists r w' d',
    from_dict mapping w = (r, w')
    /\ heap w' !! mapping = Some (ODict d')
    /\ d' = delete "_id" d
    /\ d' !! "_id" = None
    /\ heap w' !! mapping <> heap w !! mapping.
Proof.
  intros Hd Hid.
  exists (construct_read_model (delete "_id" d)),
    (set_heap (<[mapping := ODict (delete "_id" d)]> (heap w)) w), (delete "_id" d).
  split; [by apply from_dict_run |].
  split; [simpl; apply lookup_insert_eq |].
  split; [reflexivity |].
  split; [apply lookup_delete_eq |].
  simpl. rewrite lookup_insert_eq, Hd. intros E.
  assert (E' : delete "_id" d = d) by congruence.
  assert (Hx : delete "_id" d !! "_id" = Some v) by (rewrite E'; exact Hid).
  rewrite lookup_delete_eq in Hx. discriminate.
Qed.

(** C10. from_dict on a mapping that, once "_id" is removed, holds a key
    that is no field of the read model raises TypeError instead of ignoring
    the key. *)
Theorem from_dict_surplus_key w mapping d (k : string) :
  heap w !! mapping = Some (ODict d) ->
  k <> "_id" ->
  k ∉ read_model_fields ->
  is_Some (d !! k) ->
  exists w', from_dict mapping w = (Raise TypeError, w').
Proof.
  intros Hd Hne Hk Hsome.
  eexists. rewrite (from_dict_run _ _ _ Hd).
  rewrite (construct_surplus _ k Hk); [reflexivity |].
  by rewrite lookup_delete_ne.
Qed.

End MigrationProperties.

Lemma from_dict_to_dict_roundtrip_witness :
  exists mapping w1 w2 rm,
    to_dict 1%positive true sample_world = (Ok mapping, w1)
    /\ from_dict mapping w1 = (Ok rm, w2)
    /\ from_migration 1%positive sample_world = (Ok rm, sample_world).
Proof.
  destruct (from_dict_to_dict_roundtrip sample_world 1%positive sample_migration)
    as (mapping & w1 & w2 & rm & Hto & _ & Hfrom & _ & Hmig & _).
  - vm_compute. reflexivity.
  - exists mapping, w1, w2, rm. repeat split; assumption.
Defined.

Lemma set_is_applied_only_flag_witness :
  exists w' m',
    set_is_applied 1%positive true sample_world = (Ok tt, w')
    /\ heap w' !! 1%positive = Some (OMigration m')
    /\ is_applied m' = true
    /\ events w' = events sample_world.
Proof.
  destruct (set_is_applied_only_flag sample_world 1%positive sample_migration true)
    as (w' & m' & Hrun & Hobj & Hflag & H).
  - vm_compute. reflexivity.
  - exists w', m'. repeat split; try assumption. apply H.
Defined.

Lemma from_dict_missing_key_witness :
  exists w', from_dict 3%positive sample_world = (Raise TypeError, w').
Proof.
  destruct (from_dict_missing_key sample_world 3%positive
              (delete "checksum" sample_record) "checksum") as (w' & Hrun & _).
  - vm_compute. reflexivity.
  - apply (bool_decide_unpack ("checksum" ∈ read_model_fields)). vm_compute. exact I.
  - vm_compute. reflexivity.
  - exists w'. exact Hrun.
Defined.

Lemma from_dict_mutates_argument_witness :
  exists r w' d',
    from_dict 2%positive sample_world = (r, w')
    /\ heap w' !! 2%positive = Some (ODict d')
    /\ d' !! "_id" = None.
Proof.
  destruct (from_dict_mutates_argument sample_world 2%positive sample_record (VInt 1))
    as (r & w' & d' & Hrun & Hobj & _ & Hid & _).
  - vm_compute. reflexivity.
  - vm_compute. reflexivity.
  - exists r, w', d'. repeat split; assumption.
Defined.

Lemma from_dict_surplus_key_witness :
  exists w', from_dict 4%positive sample_world = (Raise TypeError, w').
Proof.
  apply (from_dict_surplus_key sample_world 4%positive
           (<["applied_at" := VInt 1700000000]> sample_record) "applied_at").
  - vm_compute. reflexivity.
  - discriminate.
  - apply (bool_decide_eq_false_1 ("applied_at" ∈ read_model_fields)).
    vm_compute. reflexivity.
  - vm_compute. eexists. reflexivity.
Defined.

(** ** Filename strategies *)

(** The parametrised cases of the tests of the three strategies. *)
Example test_missing_strategy :
  map (is_valid_filename MissingFilenameStrategy) ["file1.txt"; "file2.txt"; "file3.txt"]
    = [true; true; true]
  /\ transform_migration_filename MissingFilenameStrategy "file2.txt" 2 = "file2.txt".
Proof. split; reflexivity. Qed.

Example test_numerical_strategy :
  map (is_valid_filename NumericalFilenameStrategy)
      ["001_file.txt"; "002_file.txt"; "003_file.txt"; "file.txt"; "abc_file.txt"]
    = [true; true; true; false; false]
  /\ transform_migration_filename NumericalFilenameStrategy "001_file.txt" 1 = "001_file.txt"
  /\ transform_migration_filename NumericalFilenameStrategy "002_file.txt" 2 = "002_file.txt"
  /\ transform_migration_filename NumericalFilenameStrategy "file.txt" 1 = "001_file.txt"
  /\ transform_migration_filename NumericalFilenameStrategy "abc_file.txt" 2
     = "002_abc_file.txt".
Proof. repeat split; vm_compute; reflexivity. Qed.

Example test_unix_strategy (stamp : string -> Z -> string) :
  map (is_valid_filename (UnixFilenameStrategy stamp))
      ["1234567890_file.txt"; "12345678901234567890_file.txt"; "file.txt"; "12345_file.txt"]
    = [true; true; false; false]
  /\ transform_migration_filename (UnixFilenameStrategy stamp) "1234567890_file.txt" 1
     = "1234567890_file.txt"
  /\ transform_migration_filename (UnixFilenameStrategy stamp)
       "12345678901234567890_file.txt" 2 = "12345678901234567890_file.txt".
Proof. repeat split; vm_compute; reflexivity. Qed.

Lemma format_03d_table :
  forallb (fun n => three_digits (format_03d (Z.of_nat n))) (seq 0 1000) = true.
Proof. vm_compute. reflexivity. Qed.

Lemma format_03d_three_digits (p : Z) :
  0 <= p <= 999 -> three_digits (format_03d p) = true.
Proof.
  intros Hp.
  pose proof (proj1 (forallb_forall _ _) format_03d_table (Z.to_nat p)) as H.
  cbv beta in H. rewrite Z2Nat.id in H by lia.
  apply H, in_seq. lia.
Qed.

Lemma numerical_valid_prefixed (s rest : string) :
  three_digits s = true -> numerical_is_valid (s +:+ String "_" rest) = true.
Proof.
  destruct s as [| a [| b [| c [| ? ?]]]]; simpl; try discriminate.
  intros ->. reflexivity.
Qed.

Lemma numerical_valid_shape (filename : string) :
  numerical_is_valid filename = true <->
  exists a b c rest,
    is_digit a = true /\ is_digit b = true /\ is_digit c = true
    /\ filename = String a (String b (String c (String "_" rest))).
Proof.
  split.
  - destruct filename as [| a [| b [| c [| u rest]]]]; simpl; try discriminate.
    intros H. do 3 (apply andb_true_iff in H as [H ?]).
    match goal with U : bool_decide _ = true |- _ => apply bool_decide_eq_true in U; subst u end.
    exists a, b, c, rest. repeat split; assumption.
  - intros (a & b & c & rest & Ha & Hb & Hc & ->). simpl.
    by rewrite Ha, Hb, Hc.
Qed.

(** C6 (as amended). Numerical strategy: a filename is valid exactly when it
    starts with three digits and an underscore; a valid filename is returned
    unchanged at every position, an invalid one gets the position formatted
    with "03d" and an underscore in front; transforming twice equals
    transforming once on every valid filename, and on every filename when
    the position is between 0 and 999. *)
Theorem numerical_strategy_contract (filename : string) (p q : Z) :
  let valid := is_valid_filename NumericalFilenameStrategy in
  let transform := transform_migration_filename NumericalFilenameStrategy in
  (valid filename = true <->
     exists a b c rest,
       is_digit a = true /\ is_digit b = true /\ is_digit c = true
       /\ filename = String a (String b (String c (String "_" rest))))
  /\ (valid filename = true -> transform filename p = filename)
  /\ (valid filename = false ->
      transform filename p = format_03d p +:+ "_" +:+ filename)
  /\ (valid filename = true ->
      transform (transform filename p) q = transform filename p)
  /\ (0 <= p <= 999 ->
      transform (transform filename p) q = transform filename p).
Proof.
  simpl. split; [apply numerical_valid_shape |].
  split; [by intros -> |]. split; [by intros -> |].
  split.
  - intros H. by rewrite !H.
  - intros Hp. destruct (numerical_is_valid filename) eqn:E.
    + by rewrite E.
    + change (format_03d p +:+ "_" +:+ filename)
        with (format_03d p +:+ String "_" filename).
      by rewrite numerical_valid_prefixed by (by apply format_03d_three_digits).
Qed.

Lemma numerical_strategy_contract_witness :
  transform_migration_filename NumericalFilenameStrategy
    (transform_migration_filename NumericalFilenameStrategy "001_file.txt" 7) 9
  = transform_migration_filename NumericalFilenameStrategy "001_file.txt" 7
  /\ transform_migration_filename NumericalFilenameStrategy
    (transform_migration_filename NumericalFilenameStrategy "file.txt" 7) 9
  = transform_migration_filename NumericalFilenameStrategy "file.txt" 7.
Proof.
  pose proof (numerical_strategy_contract "001_file.txt" 7 9) as (_ & _ & _ & Hv & _).
  pose proof (numerical_strategy_contract "file.txt" 7 9) as (_ & _ & _ & _ & Hr).
  split; [apply Hv; reflexivity | apply Hr; lia].
Defined.

(** C6 (as stated) fails at position 1000: the padded position has four
    digits, the result does not start with three digits and an underscore,
    and a second transform prefixes it again. *)
Lemma numerical_transform_twice_1000 :
  transform_migration_filename NumericalFilenameStrategy "file.txt" 1000 = "1000_file.txt"
  /\ transform_migration_filename NumericalFilenameStrategy
       (transform_migration_filename NumericalFilenameStrategy "file.txt" 1000) 1000
     = "1000_1000_file.txt"
  /\ transform_migration_filename NumericalFilenameStrategy
       (transform_migration_filename NumericalFilenameStrategy "file.txt" 1000) 1000
     <> transform_migration_filename NumericalFilenameStrategy "file.txt" 1000.
Proof. repeat split; vm_compute; (reflexivity || discriminate). Qed.

Lemma leading_digits_split (s : string) :
  exists run,
    s = run +:+ snd (leading_digits s)
    /\ all_digits run = true
    /\ String.length run = fst (leading_digits s).
Proof.
  induction s as [| c r IH]; simpl.
  - by exists "".
  - destruct (is_digit c) eqn:Hc.
    + destruct IH as (run & Hr & Hd & Hl).
      destruct (leading_digits r) as [n rest]. simpl in *.
      exists (String c run). subst r n. simpl. rewrite Hc, Hd. done.
    + by exists "".
Qed.

Lemma leading_digits_run (run rest : string) :
  all_digits run = true ->
  leading_digits (run +:+ String "_" rest) = (String.length run, String "_" rest).
Proof.
  induction run as [| c r IH]; simpl.
  - reflexivity.
  - intros H. apply andb_true_iff in H as [Hc Hr].
    by rewrite Hc, (IH Hr).
Qed.

(** C7. Unix strategy: a filename is valid exactly when it is a run of at
    least ten digits followed by an underscore and the rest, so that
    "12345_file.txt" is invalid; a valid filename is returned unchanged by
    the transform at every position. *)
Theorem unix_strategy_contract (stamp : string -> Z -> string)
    (filename : string) (position : Z) :
  let valid := is_valid_filename (UnixFilenameStrategy stamp) in
  let transform := transform_migration_filename (UnixFilenameStrategy stamp) in
  (valid filename = true <->
     exists run rest,
       filename = run +:+ String "_" rest
       /\ all_digits run = true
       /\ (10 <= String.length run)%nat)
  /\ (valid filename = true <->
      (10 <= fst (leading_digits filename))%nat
      /\ exists rest, snd (leading_digits filename) = String "_" rest)
  /\ valid "12345_file.txt" = false
  /\ (valid filename = true -> transform filename position = filename).
Proof.
  simpl. split; [| split; [| split; [reflexivity | by intros ->]]].
  - split.
    + unfold unix_is_valid. intros H.
      destruct (leading_digits_split filename) as (run & Hs & Hd & Hl).
      destruct (leading_digits filename) as [n [| u rest]]; [discriminate |].
      apply andb_true_iff in H as [Hn Hu].
      apply bool_decide_eq_true in Hu; subst u. simpl in *.
      exists run, rest. repeat split; [done | done |].
      rewrite Hl. by apply Nat.leb_le.
    + intros (run & rest & -> & Hd & Hl). unfold unix_is_valid.
      rewrite (leading_digits_run _ _ Hd).
      apply andb_true_iff. split; [by apply Nat.leb_le | by apply bool_decide_eq_true].
  - unfold unix_is_valid.
    destruct (leading_digits filename) as [n [| u rest]]; cbn [fst snd].
    + split; [discriminate | intros [_ [? ?]]; discriminate].
    + rewrite andb_true_iff, Nat.leb_le, bool_decide_eq_true.
      split.
      * intros [? ->]. eauto.
      * intros [? [? E]]. by inversion E.
Qed.

Lemma unix_strategy_contract_witness :
  transform_migration_filename (UnixFilenameStrategy (fun f _ => f))
    "1234567890_file.txt" 1 = "1234567890_file.txt".
Proof.
  apply (unix_strategy_contract (fun f _ => f) "1234567890_file.txt" 1).
  reflexivity.
Defined.

(** C8. Missing strategy: every filename is valid, and the transform returns
    its filename argument at every position. *)
Theorem missing_strategy_contract (filename : string) (position : Z) :
  is_valid_filename MissingFilenameStrategy filename = true
  /\ transform_migration_filename MissingFilenameStrategy filename position = filename.
Proof. split; reflexivity. Qed.

(** ** Checksum service *)

(** The test suite of RFC 1321, and a text outside ASCII. *)
Example md5_rfc1321 :
  md5_hexdigest (map byte_to_Z (bytes_of_string "")) = "d41d8cd98f00b204e9800998ecf8427e"
  /\ md5_hexdigest (map byte_to_Z (bytes_of_string "a")) = "0cc175b9c0f1b6a831c399e269772661"
  /\ md5_hexdigest (map byte_to_Z (bytes_of_string "abc"))
     = "900150983cd24fb0d6963f7d28e17f72"
  /\ md5_hexdigest (map byte_to_Z (bytes_of_string
       "12345678901234567890123456789012345678901234567890123456789012345678901234567890"))
     = "57edf4a22be3c955ac49da2e2107b67a".
Proof. repeat split; vm_compute; reflexivity. Qed.

Example utf8_two_bytes :
  utf8_decode [0xC3; 0xA9] = Some [0xE9]
  /\ utf8_encode [0xE9] = Some [0xC3; 0xA9]
  /\ utf8_decode [0xC0; 0x80] = None
  /\ utf8_decode [0xED; 0xA0; 0x80] = None.
Proof. repeat split; reflexivity. Qed.

Ltac reflect_bounds :=
  repeat match goal with
  | H : (_ && _) = true |- _ => apply andb_true_iff in H as [? ?]
  | H : (_ <=? _) = true |- _ => apply Z.leb_le in H
  | H : (_ <=? _) = false |- _ => apply Z.leb_gt in H
  | H : (_ <? _) = true |- _ => apply Z.ltb_lt in H
  | H : (_ <? _) = false |- _ => apply Z.ltb_ge in H
  | H : (_ =? _) = true |- _ => apply Z.eqb_eq in H
  | H : (_ =? _) = false |- _ => apply Z.eqb_neq in H
  end.

Lemma utf8_decode_scalar_bounded (n : nat) :
  forall (bs : list Z) (t : text),
    (length bs <= n)%nat -> utf8_decode bs = Some t -> Forall unicode_scalar t.
Proof.
  induction n as [| n IH]; intros [| b0 r0] t Hlen; simpl in *;
    try (intros [= <-]; constructor); try lia.
  destruct ((0 <=? b0) && (b0 <? 128)) eqn:E1.
  { destruct (utf8_decode r0) as [t0 |] eqn:Er; simpl; intros [= <-].
    constructor; [unfold unicode_scalar; reflect_bounds; lia |].
    apply (IH r0); [lia | done]. }
  destruct ((194 <=? b0) && (b0 <=? 223)) eqn:E2.
  { destruct r0 as [| b1 r1]; [discriminate |].
    unfold is_continuation.
    destruct ((128 <=? b1) && (b1 <=? 191)) eqn:C1; [| discriminate].
    destruct (utf8_decode r1) as [t1 |] eqn:Er; simpl; intros [= <-].
    constructor; [unfold unicode_scalar; reflect_bounds; lia |].
    apply (IH r1); [simpl in Hlen; lia | done]. }
  destruct ((224 <=? b0) && (b0 <=? 239)) eqn:E3.
  { destruct r0 as [| b1 [| b2 r2]]; try discriminate.
    unfold is_continuation.
    destruct ((second_lo b0 <=? b1) && (b1 <=? second_hi b0)
              && ((128 <=? b2) && (b2 <=? 191))) eqn:C1; [| discriminate].
    destruct (utf8_decode r2) as [t2 |] eqn:Er; simpl; intros [= <-].
    constructor; [| apply (IH r2); [simpl in Hlen; lia | done]].
    unfold unicode_scalar, second_lo, second_hi in *.
    destruct (b0 =? 224) eqn:?; destruct (b0 =? 237) eqn:?;
      destruct (b0 =? 240) eqn:?; destruct (b0 =? 244) eqn:?;
      reflect_bounds; lia. }
  destruct ((240 <=? b0) && (b0 <=? 244)) eqn:E4; [| discriminate].
  destruct r0 as [| b1 [| b2 [| b3 r3]]]; try discriminate.
  unfold is_continuation.
  destruct ((second_lo b0 <=? b1) && (b1 <=? second_hi b0)
            && ((128 <=? b2) && (b2 <=? 191))
            && ((128 <=? b3) && (b3 <=? 191))) eqn:C1; [| discriminate].
  destruct (utf8_decode r3) as [t3 |] eqn:Er; simpl; intros [= <-].
  constructor; [| apply (IH r3); [simpl in Hlen; lia | done]].
  unfold unicode_scalar, second_lo, second_hi in *.
  destruct (b0 =? 224) eqn:?; destruct (b0 =? 237) eqn:?;
    destruct (b0 =? 240) eqn:?; destruct (b0 =? 244) eqn:?;
    reflect_bounds; lia.
Qed.

Lemma utf8_decode_scalar (bs : list Z) (t : text) :
  utf8_decode bs = Some t -> Forall unicode_scalar t.
Proof. apply (utf8_decode_scalar_bounded (length bs)). lia. Qed.

Lemma universal_newlines_scalar_bounded (n : nat) :
  forall s : text,
    (length s <= n)%nat -> Forall unicode_scalar s ->
    Forall unicode_scalar (universal_newlines s).
Proof.
  assert (Hnl : unicode_scalar 10) by (unfold unicode_scalar; lia).
  induction n as [| n IH]; intros [| c r] Hlen Hs; simpl in *;
    try constructor; try lia.
  apply Forall_cons in Hs as [Hc Hr].
  destruct (c =? 13).
  - destruct r as [| c' r'].
    + by repeat constructor.
    + apply Forall_cons in Hr as [Hc' Hr'].
      destruct (c' =? 10); constructor; try done.
      * apply IH; [simpl in Hlen; lia | done].
      * apply IH; [lia | by constructor].
  - constructor; [done |]. apply IH; [lia | done].
Qed.

Lemma utf8_encode_char_scalar (c : Z) :
  unicode_scalar c -> is_Some (utf8_encode_char c).
Proof.
  unfold unicode_scalar, utf8_encode_char. intros Hc.
  repeat case_match; try (by eexists); reflect_bounds; lia.
Qed.

Lemma utf8_encode_scalar (s : text) :
  Forall unicode_scalar s -> is_Some (utf8_encode s).
Proof.
  induction 1 as [| c r Hc _ IH]; simpl; [by eexists |].
  destruct (utf8_encode_char_scalar c Hc) as [bs ->].
  destruct IH as [rest ->]. by eexists.
Qed.

Lemma read_text_encodable (content : list byte) (file_data : text) :
  read_text content = Some file_data -> is_Some (utf8_encode file_data).
Proof.
  unfold read_text.
  destruct (utf8_decode (map byte_to_Z content)) as [t |] eqn:E; simpl; [| discriminate].
  intros [= <-]. apply utf8_encode_scalar.
  apply (universal_newlines_scalar_bounded (length t)); [lia |].
  by apply utf8_decode_scalar in E.
Qed.

Lemma md5_digest_length (msg : list Z) : length (md5_digest msg) = 16%nat.
Proof.
  unfold md5_digest.
  destruct (md5_blocks _ _ _) as [[[a b] c] d]. reflexivity.
Qed.

Lemma hex_digit_is_hex (n : Z) : 0 <= n < 16 -> is_hex_digit (hex_digit n) = true.
Proof.
  intros Hn. unfold hex_digit.
  assert (Hk : (Z.to_nat n < 16)%nat) by lia.
  revert Hk. generalize (Z.to_nat n) as k. intros k Hk.
  do 16 (destruct k as [| k]; [vm_compute; reflexivity |]). lia.
Qed.

Lemma hex_of_bytes_shape (bs : list Z) :
  String.length (hex_of_bytes bs) = (2 * length bs)%nat
  /\ all_hex (hex_of_bytes bs) = true.
Proof.
  induction bs as [| b r [IHl IHh]]; [done |].
  cbn [hex_of_bytes String.length all_hex length]. split; [lia |].
  rewrite !hex_digit_is_hex, IHh; [done | |].
  - pose proof (Z.mod_pos_bound b 16). lia.
  - pose proof (Z.mod_pos_bound b 256).
    split; [apply Z.div_pos; lia | apply Z.div_lt_upper_bound; lia].
Qed.

Section ChecksumProperties.

Context {Command Rule : Type}.

Implicit Types (w : World Command Rule) (module : MigrationModule).

(** C3 (as amended). For a module whose backing file exists and decodes as
    text, the checksum service reads the whole file in text mode, encodes the
    text as UTF-8 and returns the MD5 digest of these bytes as 32 hexadecimal
    characters, leaving the store as it was; the result depends on nothing
    but the file's content, so the same content gives the same digest. That
    different contents give different digests is not part of it. *)
Theorem calculate_migration_checksum_digest w module (content : list byte) :
  files w !! location module = Some content ->
  is_Some (utf8_decode (map byte_to_Z content)) ->
  exists file_data encoded digest,
    read_text content = Some file_data
    /\ utf8_encode file_data = Some encoded
    /\ digest = md5_hexdigest encoded
    /\ calculate_migration_checksum module w = (Ok digest, w)
    /\ String.length digest = 32%nat
    /\ all_hex digest = true
    /\ (forall w' module',
          files w' !! location module' = Some content ->
          calculate_migration_checksum module' w' = (Ok digest, w')).
Proof.
  intros Hfile [t Ht].
  assert (Hread : read_text content = Some (universal_newlines t)).
  { unfold read_text. by rewrite Ht. }
  destruct (read_text_encodable _ _ Hread) as [encoded Henc].
  exists (universal_newlines t), encoded, (md5_hexdigest encoded).
  assert (Hrun : forall w' module',
             files w' !! location module' = Some content ->
             calculate_migration_checksum module' w' = (Ok (md5_hexdigest encoded), w')).
  { intros w' module' H'. unfold calculate_migration_checksum.
    by rewrite H', Hread, Henc. }
  destruct (hex_of_bytes_shape (md5_digest encoded)) as [Hlen Hhex].
  rewrite md5_digest_length in Hlen.
  repeat split; auto.
Qed.

End ChecksumProperties.

Lemma calculate_migration_checksum_digest_witness :
  exists file_data encoded digest,
    read_text (bytes_of_string "x = 1") = Some file_data
    /\ utf8_encode file_data = Some encoded
    /\ digest = md5_hexdigest encoded
    /\ calculate_migration_checksum (mkModule "001_m.py")
         (mkWorld (Command := unit) (Rule := unit) ∅
            {[ "001_m.py" := bytes_of_string "x = 1" ]} [])
       = (Ok digest,
          mkWorld ∅ {[ "001_m.py" := bytes_of_string "x = 1" ]} [])
    /\ String.length digest = 32%nat
    /\ all_hex digest = true
    /\ (forall (w' : World unit unit) module',
          files w' !! location module' = Some (bytes_of_string "x = 1") ->
          calculate_migration_checksum module' w' = (Ok digest, w')).
Proof.
  apply (calculate_migration_checksum_digest
           (mkWorld (Command := unit) (Rule := unit) ∅
              {[ "001_m.py" := bytes_of_string "x = 1" ]} [])
           (mkModule "001_m.py") (bytes_of_string "x = 1")).
  - vm_compute. reflexivity.
  - vm_compute. eexists. reflexivity.
Defined.

(** C3 (as stated) fails on line endings: a file that ends its line with
    "\r\n" and one that ends it with "\n" differ by a byte, and the service
    returns the same digest for both. *)
Lemma checksum_same_for_crlf_and_lf :
  let unix := bytes_of_string "x = 1" ++ [x0a] in
  let dos := bytes_of_string "x = 1" ++ [x0d; x0a] in
  let run content :=
    fst (calculate_migration_checksum (mkModule "001_m.py")
           (mkWorld (Command := unit) (Rule := unit) ∅ {[ "001_m.py" := content ]} [])) in
  unix <> dos
  /\ run unix = Ok "3253b41059cac6e987c5a5e9233ea5d0"
  /\ run dos = Ok "3253b41059cac6e987c5a5e9233ea5d0".
Proof.
  cbv zeta. split; [discriminate |].
  split; vm_compute; reflexivity.
Qed.

(** MD5 itself maps different byte strings to one digest: two 128-byte
    messages that differ in six bytes. *)
Remark md5_collision :
  let m1 :=
    [ 0xd1; 0x31; 0xdd; 0x02; 0xc5; 0xe6; 0xee; 0xc4; 0x69; 0x3d; 0x9a; 0x06; 0x98; 0xaf; 0xf9; 0x5c;
      0x2f; 0xca; 0xb5; 0x87; 0x12; 0x46; 0x7e; 0xab; 0x40; 0x04; 0x58; 0x3e; 0xb8; 0xfb; 0x7f; 0x89;
      0x55; 0xad; 0x34; 0x06; 0x09; 0xf4; 0xb3; 0x02; 0x83; 0xe4; 0x88; 0x83; 0x25; 0x71; 0x41; 0x5a;
      0x08; 0x51; 0x25; 0xe8; 0xf7; 0xcd; 0xc9; 0x9f; 0xd9; 0x1d; 0xbd; 0xf2; 0x80; 0x37; 0x3c; 0x5b;
      0xd8; 0x82; 0x3e; 0x31; 0x56; 0x34; 0x8f; 0x5b; 0xae; 0x6d; 0xac; 0xd4; 0x36; 0xc9; 0x19; 0xc6;
      0xdd; 0x53; 0xe2; 0xb4; 0x87; 0xda; 0x03; 0xfd; 0x02; 0x39; 0x63; 0x06; 0xd2; 0x48; 0xcd; 0xa0;
      0xe9; 0x9f; 0x33; 0x42; 0x0f; 0x57; 0x7e; 0xe8; 0xce; 0x54; 0xb6; 0x70; 0x80; 0xa8; 0x0d; 0x1e;
      0xc6; 0x98; 0x21; 0xbc; 0xb6; 0xa8; 0x83; 0x93; 0x96; 0xf9; 0x65; 0x2b; 0x6f; 0xf7; 0x2a; 0x70 ] in
  let m2 :=
    [ 0xd1; 0x31; 0xdd; 0x02; 0xc5; 0xe6; 0xee; 0xc4; 0x69; 0x3d; 0x9a; 0x06; 0x98; 0xaf; 0xf9; 0x5c;
      0x2f; 0xca; 0xb5; 0x07; 0x12; 0x46; 0x7e; 0xab; 0x40; 0x04; 0x58; 0x3e; 0xb8; 0xfb; 0x7f; 0x89;
      0x55; 0xad; 0x34; 0x06; 0x09; 0xf4; 0xb3; 0x02; 0x83; 0xe4; 0x88; 0x83; 0x25; 0xf1; 0x41; 0x5a;
      0x08; 0x51; 0x25; 0xe8; 0xf7; 0xcd; 0xc9; 0x9f; 0xd9; 0x1d; 0xbd; 0x72; 0x80; 0x37; 0x3c; 0x5b;
      0xd8; 0x82; 0x3e; 0x31; 0x56; 0x34; 0x8f; 0x5b; 0xae; 0x6d; 0xac; 0xd4; 0x36; 0xc9; 0x19; 0xc6;
      0xdd; 0x53; 0xe2; 0x34; 0x87; 0xda; 0x03; 0xfd; 0x02; 0x39; 0x63; 0x06; 0xd2; 0x48; 0xcd; 0xa0;
      0xe9; 0x9f; 0x33; 0x42; 0x0f; 0x57; 0x7e; 0xe8; 0xce; 0x54; 0xb6; 0x70; 0x80; 0x28; 0x0d; 0x1e;
      0xc6; 0x98; 0x21; 0xbc; 0xb6; 0xa8; 0x83; 0x93; 0x96; 0xf9; 0x65; 0xab; 0x6f; 0xf7; 0x2a; 0x70 ] in
  m1 <> m2
  /\ md5_hexdigest m1 = "79054025255fb1a26e4bc422aef54eb4"
  /\ md5_hexdigest m2 = "79054025255fb1a26e4bc422aef54eb4".
Proof.
  cbv zeta. split; [discriminate |].
  split; vm_compute; reflexivity.
Qed.

(** ** The rule-evaluation pass *)

(** The test of FakeRule: the default diagnostic and no dependencies. *)
Example test_fake_rule :
  let rule := new_rule (Client := unit) "FakeRule" (fun _ => Ok false) in
  rule_name rule = "FakeRule"
  /\ depends_on rule = []
  /\ render_broken_rule rule = "Business rule FakeRule is broken.".
Proof. repeat split; reflexivity. Qed.

Section RuleProperties.

Context {Client Command : Type}.

Local Abbreviation BusinessRule := (MigrationBusinessRule Client).

Implicit Types (w : World Command BusinessRule) (client : Client).
Implicit Types (rule : BusinessRule) (rules rest : list BusinessRule).
Implicit Types (evaluated broken : gset string) (trace : list Event).

Lemma add_events_nil w : add_events [] w = w.
Proof. destruct w. unfold add_events. simpl. by rewrite app_nil_r. Qed.

Lemma add_events_app trace1 trace2 w :
  add_events trace2 (add_events trace1 w) = add_events (trace1 ++ trace2) w.
Proof. unfold add_events. simpl. by rewrite app_assoc. Qed.

Lemma unmet_some evaluated broken (deps : list string) :
  existsb (unmet evaluated broken) deps = true <->
  exists d, d ∈ deps /\ (d ∉ evaluated \/ d ∈ broken).
Proof.
  rewrite existsb_exists. unfold unmet. split.
  - intros (d & Hin & H). exists d. split; [by apply list_elem_of_In |].
    apply orb_true_iff in H as [H | H].
    + left. apply negb_true_iff in H. by apply bool_decide_eq_false in H.
    + right. by apply bool_decide_eq_true in H.
  - intros (d & Hin & H). exists d. split; [by apply list_elem_of_In |].
    apply orb_true_iff. destruct H as [H | H].
    + left. apply negb_true_iff. by apply bool_decide_eq_false.
    + right. by apply bool_decide_eq_true.
Qed.

(** The three ways one rule is handled. *)
Lemma evaluate_rules_short_circuit client rule rest position evaluated broken w :
  existsb (unmet evaluated broken) (depends_on rule) = true ->
  evaluate_rules client (rule :: rest) position evaluated broken w =
    match evaluate_rules client rest (S position)
            ({[rule_name rule]} ∪ evaluated) ({[rule_name rule]} ∪ broken) w with
    | (Ok later, w') => (Ok (position :: later), w')
    | (Raise e, w') => (Raise e, w')
    end.
Proof.
  intros H. cbn [evaluate_rules]. rewrite H. unfold bind at 1. unfold ret at 1.
  unfold bind. by destruct (evaluate_rules _ _ _ _ _ _) as [[] ?].
Qed.

Lemma evaluate_rules_checked client rule rest position evaluated broken w (b : bool) :
  existsb (unmet evaluated broken) (depends_on rule) = false ->
  check_is_broken rule client = Ok b ->
  evaluate_rules client (rule :: rest) position evaluated broken w =
    match evaluate_rules client rest (S position)
            ({[rule_name rule]} ∪ evaluated)
            (if b then {[rule_name rule]} ∪ broken else broken)
            (add_events [EvCheckIsBroken position] w) with
    | (Ok later, w') => (Ok (if b then position :: later else later), w')
    | (Raise e, w') => (Raise e, w')
    end.
Proof.
  intros H Hb. cbn [evaluate_rules]. rewrite H.
  unfold bind at 1. unfold bind at 1. unfold emit at 1. rewrite Hb.
  unfold bind. by destruct (evaluate_rules _ _ _ _ _ _) as [[] ?].
Qed.

Lemma evaluate_rules_fault client rule rest position evaluated broken w (e : exn) :
  existsb (unmet evaluated broken) (depends_on rule) = false ->
  check_is_broken rule client = Raise e ->
  evaluate_rules client (rule :: rest) position evaluated broken w =
    (Raise e, add_events [EvCheckIsBroken position] w).
Proof.
  intros H He. cbn [evaluate_rules]. rewrite H.
  unfold bind at 1. unfold bind at 1. unfold emit at 1. by rewrite He.
Qed.

Lemma invocations_cons_ne (i p : nat) trace :
  i <> p -> invocations i (EvCheckIsBroken p :: trace) = invocations i trace.
Proof.
  intros Hne. unfold invocations. rewrite filter_cons_False; [done |].
  intros [= E]. by apply Hne.
Qed.

Lemma invocations_absent (i : nat) trace :
  EvCheckIsBroken i ∉ trace -> invocations i trace = 0%nat.
Proof.
  induction trace as [| e t IH]; [done |].
  intros Hnot. apply not_elem_of_cons in Hnot as [Hne Hnot].
  unfold invocations. rewrite filter_cons_False by done. by apply IH.
Qed.

Lemma invocations_later (i position : nat) trace :
  Forall (fun e => exists p, e = EvCheckIsBroken p /\ (position <= p)%nat) trace ->
  (i < position)%nat ->
  invocations i trace = 0%nat /\ EvCheckIsBroken i ∉ trace.
Proof.
  intros Hall Hlt. split.
  - induction Hall as [| e t (p & -> & Hp) _ IH]; [done |].
    rewrite invocations_cons_ne by lia. exact IH.
  - intros Hin. rewrite Forall_forall in Hall.
    destruct (Hall _ Hin) as (p & [= <-] & Hp). lia.
Qed.

Lemma not_elem_of_insert_name (names : gset string) (n d : string) :
  n <> d -> d ∉ names -> d ∉ ({[n]} ∪ names : gset string).
Proof.
  intros Hne Hnot [H | H]%elem_of_union; [| done].
  apply elem_of_singleton in H. congruence.
Qed.

Lemma elem_of_insert_name (names : gset string) (n : string) :
  n ∈ ({[n]} ∪ names : gset string).
Proof. set_solver. Qed.

Lemma elem_of_insert_later (names : gset string) (n d : string) :
  d ∈ names -> d ∈ ({[n]} ∪ names : gset string).
Proof. set_solver. Qed.

(** The pass from any position, with the names evaluated and marked broken
    so far. It ends in one of two ways. When it returns, the rules with an
    unmet dependency are marked without a call and the rules without
    dependencies were called once. When it raises, the error is the one that
    the check of some rule of the sequence raised when it was called. *)
Lemma evaluate_rules_general client rules :
  forall position evaluated broken w,
  exists res trace,
    evaluate_rules client rules position evaluated broken w
      = (res, add_events trace w)
    /\ Forall (fun e => exists p, e = EvCheckIsBroken p /\ (position <= p)%nat) trace
    /\ match res with
       | Ok marked =>
         Forall (fun p => (position <= p)%nat) marked
         /\ (forall k rule d,
               rules !! k = Some rule -> d ∈ depends_on rule ->
               ((d ∉ evaluated) /\ unresolved rules k d)
               \/ (d ∈ broken)
               \/ (exists j r, (j < k)%nat /\ rules !! j = Some r /\ rule_name r = d
                               /\ (position + j)%nat ∈ marked) ->
               (position + k)%nat ∈ marked
               /\ EvCheckIsBroken (position + k) ∉ trace)
         /\ (forall k rule,
               rules !! k = Some rule -> depends_on rule = [] ->
               invocations (position + k) trace = 1%nat)
       | Raise e =>
         exists k rule,
           rules !! k = Some rule /\ check_is_broken rule client = Raise e
           /\ invocations (position + k) trace = 1%nat
       end.
Proof.
  induction rules as [| rule rest IH]; intros position evaluated broken w.
  { exists (Ok []), []. rewrite add_events_nil.
    split; [done |]. split; [constructor |]. split; [constructor |].
    split; intros k ?; by rewrite lookup_nil. }
  destruct (existsb (unmet evaluated broken) (depends_on rule)) eqn:Hdeps.
  - (* an unmet dependency: marked, not called *)
    destruct (IH (S position) ({[rule_name rule]} ∪ evaluated)
                 ({[rule_name rule]} ∪ broken) w)
      as ([later | e] & trace & Hrun & Htrace & Hres).
    2: { destruct Hres as (k & r & Hk & He & Hcalled).
         exists (Raise e), trace.
         rewrite evaluate_rules_short_circuit, Hrun by done.
         split; [done |].
         split; [eapply Forall_impl; [exact Htrace |];
                 intros ev (p & -> & Hp); exists p; split; [done | lia] |].
         exists (S k), r. split; [done |]. split; [done |].
         by replace (position + S k)%nat with (S position + k)%nat by lia. }
    destruct Hres as (Hmarked & Hshort & Honce).
    exists (Ok (position :: later)), trace.
    rewrite evaluate_rules_short_circuit, Hrun by done.
    split; [done |].
    split; [eapply Forall_impl; [exact Htrace |];
            intros e (p & -> & Hp); exists p; split; [done | lia] |].
    split; [constructor; [lia | eapply Forall_impl; [exact Hmarked | simpl; lia]] |].
    split.
    + intros [| k] r d Hk Hd Hunmet.
      * rewrite Nat.add_0_r. split; [apply list_elem_of_here |].
        by apply (invocations_later _ (S position)); [| lia].
      * replace (position + S k)%nat with (S position + k)%nat by lia.
        destruct (Hshort k r d Hk Hd) as [Hin Hnot]; [| split; [by apply list_elem_of_further | done]].
        destruct Hunmet as [[Hev Hun] | [Hbr | (j & r' & Hj & Hr' & Hname & Hin)]].
        -- destruct (decide (rule_name rule = d)) as [Heq | Hne].
           { exfalso. by apply (Hun 0%nat rule); [lia | |]. }
           left. split; [by apply not_elem_of_insert_name |].
           intros j r' Hj Hr'. apply (Hun (S j) r'); [lia | done].
        -- right. left. by apply elem_of_insert_later.
        -- destruct j as [| j].
           { right. left. simpl in Hr'. injection Hr' as <-. rewrite <- Hname. apply elem_of_insert_name. }
           right. right. exists j, r'. split; [lia |]. split; [done |]. split; [done |].
           replace (position + S j)%nat with (S position + j)%nat in Hin by lia.
           apply elem_of_cons in Hin as [Hin | Hin]; [lia | done].
    + intros [| k] r Hk Hnone.
      * simpl in Hk. injection Hk as <-. rewrite Hnone in Hdeps. discriminate.
      * replace (position + S k)%nat with (S position + k)%nat by lia.
        by apply (Honce k r).
  - (* every dependency met: the check is called *)
    destruct (check_is_broken rule client) as [b | e] eqn:Hb.
    2: { (* the check raises: the pass ends here *)
         exists (Raise e), [EvCheckIsBroken position].
         rewrite (evaluate_rules_fault _ _ _ _ _ _ _ e) by done.
         split; [done |].
         split; [constructor; [exists position; split; [done | lia] | constructor] |].
         exists 0%nat, rule. split; [done |]. split; [done |].
         rewrite Nat.add_0_r. unfold invocations. by rewrite filter_cons_True. }
    destruct (IH (S position) ({[rule_name rule]} ∪ evaluated)
                 (if b then {[rule_name rule]} ∪ broken else broken)
                 (add_events [EvCheckIsBroken position] w))
      as ([later | e] & trace & Hrun & Htrace & Hres).
    2: { destruct Hres as (k & r & Hk & He & Hcalled).
         exists (Raise e), (EvCheckIsBroken position :: trace).
         rewrite (evaluate_rules_checked _ _ _ _ _ _ _ b), Hrun by done.
         rewrite add_events_app.
         split; [done |].
         split; [constructor; [exists position; split; [done | lia] |];
                 eapply Forall_impl; [exact Htrace |];
                 intros ev (p & -> & Hp); exists p; split; [done | lia] |].
         exists (S k), r. split; [done |]. split; [done |].
         rewrite invocations_cons_ne by lia.
         by replace (position + S k)%nat with (S position + k)%nat by lia. }
    destruct Hres as (Hmarked & Hshort & Honce).
    exists (Ok (if b then position :: later else later)), (EvCheckIsBroken position :: trace).
    rewrite (evaluate_rules_checked _ _ _ _ _ _ _ b), Hrun by done.
    rewrite add_events_app.
    split; [by destruct b |].
    assert (Hlater : Forall (fun p => (position <= p)%nat) later).
    { eapply Forall_impl; [exact Hmarked | simpl; lia]. }
    split; [constructor; [exists position; split; [done | lia] |];
            eapply Forall_impl; [exact Htrace |];
            intros e (p & -> & Hp); exists p; split; [done | lia] |].
    split; [destruct b; [constructor; [lia | done] | done] |].
    assert (Hnot_later : position ∉ later).
    { intros Hin. rewrite Forall_forall in Hmarked. specialize (Hmarked _ Hin). lia. }
    split.
    + intros [| k] r d Hk Hd Hunmet.
      * exfalso. simpl in Hk. injection Hk as <-.
        assert (Hex : existsb (unmet evaluated broken) (depends_on rule) = true);
          [| congruence].
        apply unmet_some. exists d. split; [done |].
        destruct Hunmet as [[Hev _] | [Hbr | (j & ? & Hj & _)]]; [by left | by right | lia].
      * replace (position + S k)%nat with (S position + k)%nat by lia.
        destruct (Hshort k r d Hk Hd) as [Hin Hnot].
        { destruct Hunmet as [[Hev Hun] | [Hbr | (j & r' & Hj & Hr' & Hname & Hin)]].
          -- destruct (decide (rule_name rule = d)) as [Heq | Hne].
             { exfalso. by apply (Hun 0%nat rule); [lia | |]. }
             left. split; [by apply not_elem_of_insert_name |].
             intros j r' Hj Hr'. apply (Hun (S j) r'); [lia | done].
          -- right. left. destruct b; [by apply elem_of_insert_later | done].
          -- destruct j as [| j].
             { right. left. simpl in Hr'. injection Hr' as <-.
               rewrite Nat.add_0_r in Hin. rewrite <- Hname.
               destruct b; [apply elem_of_insert_name | done]. }
             right. right. exists j, r'. split; [lia |]. split; [done |]. split; [done |].
             replace (position + S j)%nat with (S position + j)%nat in Hin by lia.
             destruct b; [| done].
             apply elem_of_cons in Hin as [Hin | Hin]; [lia | done]. }
        split.
        -- destruct b; [by apply list_elem_of_further | done].
        -- intros Hin'. apply elem_of_cons in Hin' as [[= E] | Hin']; [lia | done].
    + intros [| k] r Hk Hnone.
      * rewrite Nat.add_0_r. unfold invocations.
        rewrite filter_cons_True by done. simpl. f_equal.
        by apply (invocations_later _ (S position)); [| lia].
      * rewrite invocations_cons_ne by lia.
        replace (position + S k)%nat with (S position + k)%nat by lia.
        by apply (Honce k r).
Qed.

Lemma evaluate_process_run client
    (process : MigrationProcess Command BusinessRule) w marked trace :
  evaluate_rules client (proc_rules process) 0 ∅ ∅ w = (Ok marked, add_events trace w) ->
  exists verdict,
    evaluate_process client process w = (Ok verdict, add_events trace w)
    /\ (forall i rule,
          i ∈ marked -> proc_rules process !! i = Some rule ->
          exists diagnostics,
            verdict = BrokenRules diagnostics /\ render_broken_rule rule ∈ diagnostics).
Proof.
  intros Hrun. unfold evaluate_process, has_rules.
  destruct (proc_rules process) as [| rule rest] eqn:Hrules.
  - injection Hrun as <- Hw. exists ClearToProceed. split.
    + unfold ret. by rewrite <- Hw.
    + intros i rule Hin. by apply elem_of_nil in Hin.
  - rewrite (bind_ok _ _ _ _ _ Hrun).
    destruct marked as [| p later].
    + exists ClearToProceed. split; [done |].
      intros i r Hin. by apply elem_of_nil in Hin.
    + eexists. split; [reflexivity |].
      intros i r Hin Hi. eexists. split; [reflexivity |].
      apply list_elem_of_omap. exists i. split; [done |]. by rewrite Hi.
Qed.


End RuleProperties.



(** The spec's scenario: R1 is broken, R2 depends on R1; both are reported,
    as is the rule whose dependency is not in the sequence, and only the
    rules without dependencies were called. *)
Example evaluate_process_scenario :
  evaluate_process tt sample_process empty_world
  = (Ok (BrokenRules [ "Business rule R1 is broken."; "Business rule R2 is broken.";
                       "Business rule R4 is broken." ]),
     add_events [EvCheckIsBroken 0; EvCheckIsBroken 2] empty_world).
Proof. vm_compute. reflexivity. Qed.

(** An error of the client ends the pass at the rule that raised it. *)
Example evaluate_rules_client_error :
  evaluate_rules tt
    [ new_rule "R1" (fun _ => Raise (ClientError "connection lost"));
      new_rule "R2" (fun _ => Ok false) ] 0 ∅ ∅ empty_world
  = (Raise (ClientError "connection lost"), add_events [EvCheckIsBroken 0] empty_world).
Proof. vm_compute. reflexivity. Qed.


(** * Further properties of the code *)

(** ** The store, the migration and its mappings *)

Section StoreExtras.

Context {Command Rule : Type}.

Implicit Types (w : World Command Rule) (m : Migration Command Rule).
Implicit Types (self mapping l : loc) (d : gmap string value).

Lemma set_heap_same w : set_heap (heap w) w = w.
Proof. by destruct w. Qed.

Lemma store_same w l o :
  heap w !! l = Some o -> set_heap (<[l := o]> (heap w)) w = w.
Proof. intros H. rewrite insert_id by done. apply set_heap_same. Qed.

Lemma construct_ok_iff d rm :
  construct_read_model d = Ok rm <->
  dom d = read_model_fields
  /\ d !! "name" = Some (rm_name rm) /\ d !! "version" = Some (rm_version rm)
  /\ d !! "checksum" = Some (rm_checksum rm)
  /\ d !! "description" = Some (rm_description rm)
  /\ d !! "is_applied" = Some (rm_is_applied rm).
Proof.
  unfold construct_read_model. split.
  - destruct (d !! "name") as [n |] eqn:Hn; [| discriminate].
    destruct (d !! "version") as [v |] eqn:Hv; [| discriminate].
    destruct (d !! "checksum") as [c |] eqn:Hc; [| discriminate].
    destruct (d !! "description") as [de |] eqn:Hde; [| discriminate].
    destruct (d !! "is_applied") as [a |] eqn:Ha; [| discriminate].
    case_bool_decide as Hsub; [| discriminate].
    intros [= <-]. simpl. split; [| done].
    apply set_eq. intros k. split; [apply Hsub |].
    unfold read_model_fields. intros Hk.
    repeat (apply elem_of_union in Hk as [Hk | Hk]);
      apply elem_of_singleton in Hk; subst k; apply elem_of_dom; by eexists.
  - intros (Hdom & -> & -> & -> & -> & ->).
    rewrite bool_decide_eq_true_2 by (by rewrite Hdom). by destruct rm.
Qed.

(** X1. from_dict builds a read model exactly when the mapping, "_id" set
    aside, has the five field names as its keys; the fields of the read model
    are then the mapping's values, unconverted. *)
Theorem from_dict_builds_iff w mapping d :
  heap w !! mapping = Some (ODict d) ->
  ((exists rm w', from_dict mapping w = (Ok rm, w'))
     <-> dom (delete "_id" d) = read_model_fields)
  /\ (forall rm w',
        from_dict mapping w = (Ok rm, w') ->
        d !! "name" = Some (rm_name rm) /\ d !! "version" = Some (rm_version rm)
        /\ d !! "checksum" = Some (rm_checksum rm)
        /\ d !! "description" = Some (rm_description rm)
        /\ d !! "is_applied" = Some (rm_is_applied rm)).
Proof.
  intros Hd. rewrite (from_dict_run _ _ _ Hd). split; [split |].
  - intros (rm & w' & [= Hc _]). by apply construct_ok_iff in Hc as [? _].
  - intros Hdom.
    assert (Hfield : forall k, k ∈ read_model_fields -> is_Some (delete "_id" d !! k)).
    { intros k Hk. apply elem_of_dom. by rewrite Hdom. }
    destruct (Hfield "name") as [n Hn]; [unfold read_model_fields; set_solver |].
    destruct (Hfield "version") as [v Hv]; [unfold read_model_fields; set_solver |].
    destruct (Hfield "checksum") as [c Hc]; [unfold read_model_fields; set_solver |].
    destruct (Hfield "description") as [de Hde]; [unfold read_model_fields; set_solver |].
    destruct (Hfield "is_applied") as [a Ha]; [unfold read_model_fields; set_solver |].
    exists (mkReadModel n v c de a). eexists. f_equal.
    by apply construct_ok_iff.
  - intros rm w' [= Hc _]. apply construct_ok_iff in Hc as (_ & Hn & Hv & Hc & Hde & Ha).
    rewrite lookup_delete_ne in Hn, Hv, Hc, Hde, Ha by done. done.
Qed.

(** X2. from_dict on a mapping without the key "_id" changes nothing in the
    store: the caller's mapping, every other object, the files and the trace
    are as before, whether a read model was built or TypeError was raised. *)
Theorem from_dict_without_id_pure w mapping d :
  heap w !! mapping = Some (ODict d) ->
  d !! "_id" = None ->
  from_dict mapping w = (construct_read_model d, w).
Proof.
  intros Hd Hid. rewrite (from_dict_run _ _ _ Hd).
  rewrite delete_id by done. by rewrite store_same.
Qed.

Lemma to_dict_run w self m (unique : bool) :
  heap w !! self = Some (OMigration m) ->
  let five : gmap string value :=
    <["name" := VStr (name m)]> (<["version" := VInt (version m)]>
    (<["checksum" := VStr (checksum m)]> (<["is_applied" := VBool (is_applied m)]>
    (<["description" := VStr (description m)]> ∅)))) in
  let l := fresh (dom (heap w)) in
  to_dict self unique w =
    (Ok l, set_heap (<[l := ODict (if unique then <["_id" := VInt (version m)]> five
                                   else five)]> (heap w)) w).
Proof.
  intros Hm five l. unfold to_dict.
  erewrite bind_ok; [| by apply load_migration_ok].
  erewrite (bind_ok (alloc _)); [| reflexivity]. fold l five.
  destruct unique.
  - erewrite (bind_ok (setitem _ _ _)).
    + reflexivity.
    + unfold setitem. erewrite bind_ok; [| apply load_dict_ok; simpl; apply lookup_insert_eq].
      unfold store, set_heap. simpl. by rewrite insert_insert_eq.
  - erewrite (bind_ok (ret tt)); reflexivity.
Qed.

(** X3. to_dict returns a mapping object that did not exist before: the
    migration and every other object of the store are unchanged, as are the
    files and the trace. The new mapping holds the five fields of the
    migration, and the key "_id" (with the version as its value) exactly when
    unique is true. *)
Theorem to_dict_allocates w self m (unique : bool) :
  heap w !! self = Some (OMigration m) ->
  exists mapping d w',
    to_dict self unique w = (Ok mapping, w')
    /\ heap w !! mapping = None
    /\ heap w' !! mapping = Some (ODict d)
    /\ (forall l, l <> mapping -> heap w' !! l = heap w !! l)
    /\ files w' = files w /\ events w' = events w
    /\ d !! "name" = Some (VStr (name m))
    /\ d !! "version" = Some (VInt (version m))
    /\ d !! "checksum" = Some (VStr (checksum m))
    /\ d !! "description" = Some (VStr (description m))
    /\ d !! "is_applied" = Some (VBool (is_applied m))
    /\ d !! "_id" = (if unique then Some (VInt (version m)) else None)
    /\ dom (delete "_id" d) = read_model_fields.
Proof.
  intros Hm. pose proof (to_dict_run w self m unique Hm) as Hrun. cbv zeta in Hrun.
  eexists _, _, _. split; [exact Hrun |].
  split; [apply not_elem_of_dom, is_fresh |].
  split; [simpl; apply lookup_insert_eq |].
  split; [intros l Hl; simpl; by apply lookup_insert_ne |].
  do 2 (split; [reflexivity |]).
  destruct unique; repeat split; reflexivity.
Qed.

(** X4. For a mapping made by to_dict without the unique option, from_dict
    returns the read model that from_migration gives and leaves the store
    exactly as to_dict left it. *)
Theorem from_dict_to_dict_plain w self m :
  heap w !! self = Some (OMigration m) ->
  exists mapping w1 rm,
    to_dict self false w = (Ok mapping, w1)
    /\ from_dict mapping w1 = (Ok rm, w1)
    /\ from_migration self w = (Ok rm, w).
Proof.
  intros Hm. pose proof (to_dict_run w self m false Hm) as Hrun. cbv zeta in Hrun.
  eexists _, _, _. split; [exact Hrun |]. split.
  - erewrite from_dict_run by (simpl; apply lookup_insert_eq).
    rewrite delete_id by reflexivity. rewrite store_same by (simpl; apply lookup_insert_eq).
    reflexivity.
  - unfold from_migration. erewrite bind_ok; [| by apply load_migration_ok]. reflexivity.
Qed.

Lemma set_is_applied_run w self m (b : bool) :
  heap w !! self = Some (OMigration m) ->
  set_is_applied self b w =
    (Ok tt, set_heap (<[self := OMigration
       (mkMigration (name m) (version m) (checksum m) b (description m)
                    (upgrade_process m) (downgrade_process m))]> (heap w)) w).
Proof.
  intros Hm. unfold set_is_applied.
  erewrite bind_ok; [| by apply load_migration_ok]. reflexivity.
Qed.

(** X5. After set_is_applied(b), from_migration gives a read model whose
    is_applied is b and whose other four fields are those of the migration
    before the call. *)
Theorem from_migration_after_set_is_applied w self m (b : bool) :
  heap w !! self = Some (OMigration m) ->
  exists w',
    set_is_applied self b w = (Ok tt, w')
    /\ from_migration self w' =
       (Ok (mkReadModel (VStr (name m)) (VInt (version m)) (VStr (checksum m))
                        (VStr (description m)) (VBool b)), w').
Proof.
  intros Hm. eexists. split; [by apply set_is_applied_run |].
  unfold from_migration.
  erewrite bind_ok; [| apply load_migration_ok; simpl; apply lookup_insert_eq].
  reflexivity.
Qed.

(** X6. The mapping that to_dict returned is a snapshot: a later
    set_is_applied on the migration does not change it, so it still holds the
    applied flag the migration had when to_dict was called. *)
Theorem to_dict_is_snapshot w self m (unique b : bool) :
  heap w !! self = Some (OMigration m) ->
  exists mapping w1 w2 d,
    to_dict self unique w = (Ok mapping, w1)
    /\ set_is_applied self b w1 = (Ok tt, w2)
    /\ heap w1 !! mapping = Some (ODict d)
    /\ heap w2 !! mapping = Some (ODict d)
    /\ d !! "is_applied" = Some (VBool (is_applied m)).
Proof.
  intros Hm. pose proof (to_dict_run w self m unique Hm) as Hrun. cbv zeta in Hrun.
  assert (Hne : fresh (dom (heap w)) <> self).
  { intros E. apply (is_fresh (dom (heap w))). rewrite E. apply elem_of_dom. by eexists. }
  eexists _, _, _, _. split; [exact Hrun |].
  split.
  { apply (set_is_applied_run _ _ m). simpl. by rewrite lookup_insert_ne. }
  split; [simpl; apply lookup_insert_eq |].
  split.
  { simpl. rewrite lookup_insert_ne by done. apply lookup_insert_eq. }
  by destruct unique.
Qed.

(** X7. Of two calls of set_is_applied the last one decides: the store after
    both is the store after the second alone. A call with the value the flag
    already has leaves the store as it is. *)
Theorem set_is_applied_last_wins w self m (b c : bool) :
  heap w !! self = Some (OMigration m) ->
  (let* _ := set_is_applied self b in set_is_applied self c) w = set_is_applied self c w
  /\ set_is_applied self (is_applied m) w = (Ok tt, w).
Proof.
  intros Hm. split.
  - erewrite bind_ok by (by apply set_is_applied_run).
    erewrite !set_is_applied_run; [| exact Hm | simpl; apply lookup_insert_eq].
    simpl. unfold set_heap. simpl. by rewrite insert_insert_eq.
  - rewrite (set_is_applied_run _ _ m) by done.
    destruct m. simpl in *. by rewrite store_same.
Qed.

(** X8. A process starts without rules; after any sequence of add_rule
    calls its rules are the added ones in the order of the calls, has_rules
    tells whether any was added, and the name, the commands and the migration
    version are those given at construction. *)
Theorem add_rule_builds_sequence (commands : list Command) (migration_version : Z)
    (name : string) (added : list Rule) :
  let process := fold_left add_rule added (new_process commands migration_version name) in
  proc_rules process = added
  /\ (has_rules process = true <-> added <> [])
  /\ proc_name process = name
  /\ proc_commands process = commands
  /\ proc_migration_version process = migration_version.
Proof.
  assert (Hgen : forall (p : MigrationProcess Command Rule),
             let q := fold_left add_rule added p in
             proc_rules q = proc_rules p ++ added /\ proc_name q = proc_name p
             /\ proc_commands q = proc_commands p
             /\ proc_migration_version q = proc_migration_version p).
  { induction added as [| r rs IH]; intros p; simpl.
    - by rewrite app_nil_r.
    - destruct (IH (add_rule p r)) as (-> & -> & -> & ->). simpl.
      by rewrite <- app_assoc. }
  destruct (Hgen (new_process commands migration_version name)) as (Hr & Hn & Hc & Hv).
  simpl in *. repeat split; try done.
  - unfold has_rules. rewrite Hr. by destruct added.
  - unfold has_rules. rewrite Hr. by destruct added.
Qed.

End StoreExtras.

Lemma from_dict_builds_iff_witness :
  exists rm w', from_dict 2%positive sample_world = (Ok rm, w').
Proof.
  apply (from_dict_builds_iff sample_world 2%positive sample_record).
  - vm_compute. reflexivity.
  - vm_compute. reflexivity.
Defined.

Lemma from_dict_without_id_pure_witness :
  from_dict 2%positive
    (set_heap (<[2%positive := ODict (delete "_id" sample_record)]> (heap sample_world))
       sample_world)
  = (construct_read_model (delete "_id" sample_record),
     set_heap (<[2%positive := ODict (delete "_id" sample_record)]> (heap sample_world))
       sample_world).
Proof.
  apply from_dict_without_id_pure.
  - vm_compute. reflexivity.
  - vm_compute. reflexivity.
Defined.

Lemma to_dict_allocates_witness :
  exists mapping d w',
    to_dict 1%positive false sample_world = (Ok mapping, w')
    /\ heap sample_world !! mapping = None
    /\ heap w' !! mapping = Some (ODict d)
    /\ d !! "_id" = None.
Proof.
  destruct (to_dict_allocates sample_world 1%positive sample_migration false)
    as (mapping & d & w' & Hrun & Hnew & Hobj & _ & _ & _ & _ & _ & _ & _ & _ & Hid & _).
  - vm_compute. reflexivity.
  - exists mapping, d, w'. repeat split; assumption.
Defined.

Lemma from_dict_to_dict_plain_witness :
  exists mapping w1 rm,
    to_dict 1%positive false sample_world = (Ok mapping, w1)
    /\ from_dict mapping w1 = (Ok rm, w1)
    /\ from_migration 1%positive sample_world = (Ok rm, sample_world).
Proof.
  apply (from_dict_to_dict_plain sample_world 1%positive sample_migration).
  vm_compute. reflexivity.
Defined.

Lemma from_migration_after_set_is_applied_witness :
  exists w',
    set_is_applied 1%positive true sample_world = (Ok tt, w')
    /\ from_migration 1%positive w' =
       (Ok (mkReadModel (VStr (name sample_migration)) (VInt (version sample_migration))
              (VStr (checksum sample_migration)) (VStr (description sample_migration))
              (VBool true)), w').
Proof.
  apply (from_migration_after_set_is_applied sample_world 1%positive sample_migration true).
  vm_compute. reflexivity.
Defined.

Lemma to_dict_is_snapshot_witness :
  exists mapping w1 w2 d,
    to_dict 1%positive true sample_world = (Ok mapping, w1)
    /\ set_is_applied 1%positive true w1 = (Ok tt, w2)
    /\ heap w1 !! mapping = Some (ODict d)
    /\ heap w2 !! mapping = Some (ODict d)
    /\ d !! "is_applied" = Some (VBool (is_applied sample_migration)).
Proof.
  apply (to_dict_is_snapshot sample_world 1%positive sample_migration true true).
  vm_compute. reflexivity.
Defined.

Lemma set_is_applied_last_wins_witness :
  (let* _ := set_is_applied 1%positive true in set_is_applied 1%positive false) sample_world
    = set_is_applied 1%positive false sample_world
  /\ set_is_applied 1%positive (is_applied sample_migration) sample_world
     = (Ok tt, sample_world).
Proof.
  apply (set_is_applied_last_wins sample_world 1%positive sample_migration true false).
  vm_compute. reflexivity.
Defined.

(** ** The checksum service and the text it hashes *)

Lemma utf8_decode_text_bounded (n : nat) :
  forall (bs : list Z) (t : text),
    (length bs <= n)%nat -> utf8_decode bs = Some t -> utf8_text bs t.
Proof.
  induction n as [| n IH]; intros [| b0 r0] t Hlen; simpl in *;
    try (intros [= <-]; constructor); try lia.
  destruct ((0 <=? b0) && (b0 <? 128)) eqn:E1.
  { destruct (utf8_decode r0) as [t0 |] eqn:Er; simpl; intros [= <-].
    apply (utf8_cons [b0]); [constructor; reflect_bounds; lia |].
    apply IH; [lia | done]. }
  destruct ((194 <=? b0) && (b0 <=? 223)) eqn:E2.
  { destruct r0 as [| b1 r1]; [discriminate |].
    unfold is_continuation.
    destruct ((128 <=? b1) && (b1 <=? 191)) eqn:C1; [| discriminate].
    destruct (utf8_decode r1) as [t1 |] eqn:Er; simpl; intros [= <-].
    apply (utf8_cons [b0; b1]); [constructor; reflect_bounds; lia |].
    apply IH; [simpl in Hlen; lia | done]. }
  destruct ((224 <=? b0) && (b0 <=? 239)) eqn:E3.
  { destruct r0 as [| b1 [| b2 r2]]; try discriminate.
    unfold is_continuation.
    destruct ((second_lo b0 <=? b1) && (b1 <=? second_hi b0)
              && ((128 <=? b2) && (b2 <=? 191))) eqn:C1; [| discriminate].
    destruct (utf8_decode r2) as [t2 |] eqn:Er; simpl; intros [= <-].
    apply (utf8_cons [b0; b1; b2]); [constructor; reflect_bounds; lia |].
    apply IH; [simpl in Hlen; lia | done]. }
  destruct ((240 <=? b0) && (b0 <=? 244)) eqn:E4; [| discriminate].
  destruct r0 as [| b1 [| b2 [| b3 r3]]]; try discriminate.
  unfold is_continuation.
  destruct ((second_lo b0 <=? b1) && (b1 <=? second_hi b0)
            && ((128 <=? b2) && (b2 <=? 191))
            && ((128 <=? b3) && (b3 <=? 191))) eqn:C1; [| discriminate].
  destruct (utf8_decode r3) as [t3 |] eqn:Er; simpl; intros [= <-].
  apply (utf8_cons [b0; b1; b2; b3]); [constructor; reflect_bounds; lia |].
  apply IH; [simpl in Hlen; lia | done].
Qed.

Lemma utf8_decode_text (bs : list Z) (t : text) :
  utf8_decode bs = Some t -> utf8_text bs t.
Proof. apply (utf8_decode_text_bounded (length bs)). lia. Qed.

Ltac range_true :=
  repeat match goal with
  | |- (_ && _) = true => apply andb_true_intro; split
  | |- (_ <=? _) = true => apply Z.leb_le; lia
  | |- (_ <? _) = true => apply Z.ltb_lt; lia
  end.

Ltac range_false :=
  apply andb_false_iff;
  solve [ left; apply Z.leb_gt; lia | left; apply Z.ltb_ge; lia
        | right; apply Z.leb_gt; lia | right; apply Z.ltb_ge; lia ].

Lemma utf8_text_decode (bs : list Z) (t : text) :
  utf8_text bs t -> utf8_decode bs = Some t.
Proof.
  induction 1 as [| bs c rest t Hc _ IH]; [reflexivity |].
  destruct Hc; cbn [app utf8_decode].
  - replace ((0 <=? b0) && (b0 <? 128)) with true by (symmetry; range_true).
    by rewrite IH.
  - replace ((0 <=? b0) && (b0 <? 128)) with false by (symmetry; range_false).
    replace ((194 <=? b0) && (b0 <=? 223)) with true by (symmetry; range_true).
    unfold is_continuation.
    replace ((128 <=? b1) && (b1 <=? 191)) with true by (symmetry; range_true).
    by rewrite IH.
  - replace ((0 <=? b0) && (b0 <? 128)) with false by (symmetry; range_false).
    replace ((194 <=? b0) && (b0 <=? 223)) with false by (symmetry; range_false).
    replace ((224 <=? b0) && (b0 <=? 239)) with true by (symmetry; range_true).
    unfold is_continuation.
    replace ((second_lo b0 <=? b1) && (b1 <=? second_hi b0))
      with true by (symmetry; range_true).
    replace ((128 <=? b2) && (b2 <=? 191)) with true by (symmetry; range_true).
    by rewrite IH.
  - replace ((0 <=? b0) && (b0 <? 128)) with false by (symmetry; range_false).
    replace ((194 <=? b0) && (b0 <=? 223)) with false by (symmetry; range_false).
    replace ((224 <=? b0) && (b0 <=? 239)) with false by (symmetry; range_false).
    replace ((240 <=? b0) && (b0 <=? 244)) with true by (symmetry; range_true).
    unfold is_continuation.
    replace ((second_lo b0 <=? b1) && (b1 <=? second_hi b0))
      with true by (symmetry; range_true).
    replace ((128 <=? b2) && (b2 <=? 191)) with true by (symmetry; range_true).
    replace ((128 <=? b3) && (b3 <=? 191)) with true by (symmetry; range_true).
    by rewrite IH.
Qed.

Lemma utf8_char_encode (bs : list Z) (c : Z) :
  utf8_char bs c -> utf8_encode_char c = Some bs.
Proof.
  destruct 1 as [b0 H0 | b0 b1 H0 H1 | b0 b1 b2 H0 H1 H2 | b0 b1 b2 b3 H0 H1 H2 H3];
    unfold utf8_encode_char, second_lo, second_hi in *.
  - replace (b0 <? 0) with false by (symmetry; apply Z.ltb_ge; lia).
    by replace (b0 <? 128) with true by (symmetry; apply Z.ltb_lt; lia).
  - set (c := (b0 - 192) * 64 + (b1 - 128)).
    assert (Hc : 128 <= c < 2048) by (unfold c; lia).
    replace (c <? 0) with false by (symmetry; apply Z.ltb_ge; lia).
    replace (c <? 128) with false by (symmetry; apply Z.ltb_ge; lia).
    replace (c <? 2048) with true by (symmetry; apply Z.ltb_lt; lia).
    do 3 f_equal; unfold c; Z.div_mod_to_equations; lia.
  - set (c := (b0 - 224) * 4096 + (b1 - 128) * 64 + (b2 - 128)).
    assert (Hc : 2048 <= c < 55296 \/ 57344 <= c < 65536).
    { unfold c. destruct (b0 =? 224) eqn:?; destruct (b0 =? 237) eqn:?;
        destruct (b0 =? 240) eqn:?; destruct (b0 =? 244) eqn:?; reflect_bounds; lia. }
    replace (c <? 0) with false by (symmetry; apply Z.ltb_ge; lia).
    replace (c <? 128) with false by (symmetry; apply Z.ltb_ge; lia).
    replace (c <? 2048) with false by (symmetry; apply Z.ltb_ge; lia).
    replace ((55296 <=? c) && (c <=? 57343)) with false
      by (symmetry; destruct Hc; range_false).
    replace (c <? 65536) with true by (symmetry; apply Z.ltb_lt; lia).
    assert (Hb1 : 128 <= b1 <= 191).
    { destruct (b0 =? 224); destruct (b0 =? 237); destruct (b0 =? 240);
        destruct (b0 =? 244); lia. }
    do 4 f_equal; unfold c; Z.div_mod_to_equations; lia.
  - set (c := (b0 - 240) * 262144 + (b1 - 128) * 4096 + (b2 - 128) * 64 + (b3 - 128)).
    assert (Hc : 65536 <= c < 1114112).
    { unfold c. destruct (b0 =? 224) eqn:?; destruct (b0 =? 237) eqn:?;
        destruct (b0 =? 240) eqn:?; destruct (b0 =? 244) eqn:?; reflect_bounds; lia. }
    replace (c <? 0) with false by (symmetry; apply Z.ltb_ge; lia).
    replace (c <? 128) with false by (symmetry; apply Z.ltb_ge; lia).
    replace (c <? 2048) with false by (symmetry; apply Z.ltb_ge; lia).
    replace ((55296 <=? c) && (c <=? 57343)) with false by (symmetry; range_false).
    replace (c <? 65536) with false by (symmetry; apply Z.ltb_ge; lia).
    replace (c <? 1114112) with true by (symmetry; apply Z.ltb_lt; lia).
    assert (Hb1 : 128 <= b1 <= 191).
    { destruct (b0 =? 224); destruct (b0 =? 237); destruct (b0 =? 240);
        destruct (b0 =? 244); lia. }
    do 5 f_equal; unfold c; Z.div_mod_to_equations; lia.
Qed.

Lemma utf8_text_encode (bs : list Z) (t : text) :
  utf8_text bs t -> utf8_encode t = Some bs.
Proof.
  induction 1 as [| bs c rest t Hc _ IH]; [reflexivity |].
  simpl. by rewrite (utf8_char_encode _ _ Hc), IH.
Qed.

(** The octets of a character other than a carriage return or a line feed
    are neither; those two are one octet each. *)
Lemma utf8_char_control (bs : list Z) (c : Z) :
  utf8_char bs c ->
  (c = 10 \/ c = 13 -> bs = [c])
  /\ (c <> 10 -> 10 ∉ bs) /\ (c <> 13 -> 13 ∉ bs).
Proof.
  assert (Hfar : forall l : list Z, Forall (fun b => 128 <= b) l -> (10 ∉ l) /\ (13 ∉ l)).
  { intros l Hl. rewrite Forall_forall in Hl.
    split; intros Hin; specialize (Hl _ Hin); lia. }
  destruct 1 as [b0 H0 | b0 b1 H0 H1 | b0 b1 b2 H0 H1 H2 | b0 b1 b2 b3 H0 H1 H2 H3].
  - split; [done |]. split; intros Hne Hin; apply list_elem_of_singleton in Hin; lia.
  - split; [lia |]. split; intros _; apply Hfar; repeat constructor; lia.
  - assert (Hlo : 128 <= b1 /\ (b0 = 224 -> 160 <= b1)).
    { unfold second_lo in H1. destruct (b0 =? 224) eqn:?; destruct (b0 =? 240) eqn:?;
        reflect_bounds; lia. }
    split; [lia |]. split; intros _; apply Hfar; repeat constructor; lia.
  - assert (Hlo : 128 <= b1 /\ (b0 = 240 -> 144 <= b1)).
    { unfold second_lo in H1. destruct (b0 =? 224) eqn:?; destruct (b0 =? 240) eqn:?;
        reflect_bounds; lia. }
    split; [lia |]. split; intros _; apply Hfar; repeat constructor; lia.
Qed.

Lemma crlf_absent (bs : list Z) : 10 ∉ bs -> crlf bs = bs.
Proof.
  induction bs as [| b r IH]; [done |].
  intros [Hb Hr]%not_elem_of_cons. unfold crlf in *. simpl.
  replace (b =? 10) with false by (symmetry; apply Z.eqb_neq; lia).
  simpl. by rewrite IH.
Qed.

Lemma crlf_app (a b : list Z) : crlf (a ++ b) = crlf a ++ crlf b.
Proof. unfold crlf. apply flat_map_app. Qed.

Lemma without_cr_absent (bs : list Z) : 13 ∉ bs -> without_cr bs = bs.
Proof.
  induction bs as [| b r IH]; [done |].
  intros [Hb Hr]%not_elem_of_cons. unfold without_cr in *.
  rewrite filter_cons_True by lia. by rewrite IH.
Qed.

Lemma without_cr_app (a b : list Z) : without_cr (a ++ b) = without_cr a ++ without_cr b.
Proof. unfold without_cr. apply filter_app. Qed.

Lemma without_cr_crlf (bs : list Z) : 13 ∉ bs -> without_cr (crlf bs) = bs.
Proof.
  induction bs as [| b r IH]; [done |].
  intros [Hb Hr]%not_elem_of_cons.
  change (crlf (b :: r)) with ((if b =? 10 then [13; 10] else [b]) ++ crlf r).
  rewrite without_cr_app, IH by done.
  destruct (b =? 10) eqn:E; unfold without_cr.
  - apply Z.eqb_eq in E as ->. by rewrite filter_cons_False, filter_cons_True by lia.
  - by rewrite filter_cons_True by lia.
Qed.

Lemma utf8_text_crlf (bs : list Z) (t : text) :
  utf8_text bs t -> utf8_text (crlf bs) (crlf t).
Proof.
  induction 1 as [| bs c rest t Hc _ IH]; [constructor |].
  rewrite crlf_app. change (crlf (c :: t)) with ((if c =? 10 then [13; 10] else [c]) ++ crlf t).
  destruct (utf8_char_control _ _ Hc) as (Hone & Hlf & _).
  destruct (c =? 10) eqn:E.
  - apply Z.eqb_eq in E as ->. rewrite (Hone (or_introl eq_refl)).
    apply (utf8_cons [13] 13); [constructor; lia |].
    apply (utf8_cons [10] 10); [constructor; lia | exact IH].
  - apply Z.eqb_neq in E. rewrite (crlf_absent bs) by auto.
    by apply utf8_cons.
Qed.

Lemma utf8_text_without_cr (bs : list Z) (t : text) :
  utf8_text bs t -> utf8_text (without_cr bs) (without_cr t).
Proof.
  induction 1 as [| bs c rest t Hc _ IH]; [constructor |].
  rewrite without_cr_app.
  destruct (utf8_char_control _ _ Hc) as (Hone & _ & Hcr).
  destruct (decide (c = 13)) as [-> | Hne].
  - rewrite (Hone (or_intror eq_refl)). unfold without_cr at 1 3.
    rewrite !filter_cons_False by (intros H; by apply H). exact IH.
  - rewrite (without_cr_absent bs) by auto.
    unfold without_cr at 2. rewrite filter_cons_True by done.
    by apply utf8_cons.
Qed.

Lemma utf8_text_no_cr (bs : list Z) (t : text) :
  utf8_text bs t -> 13 ∉ bs -> 13 ∉ t.
Proof.
  induction 1 as [| bs c rest t Hc _ IH]; [done |].
  intros Hnot. apply not_elem_of_app in Hnot as [Hbs Hrest].
  apply not_elem_of_cons. split; [| by apply IH].
  intros <-. destruct (utf8_char_control _ _ Hc) as (Hone & _).
  rewrite (Hone (or_intror eq_refl)) in Hbs. apply Hbs, list_elem_of_here.
Qed.

Lemma universal_newlines_no_cr (t : text) : 13 ∉ t -> universal_newlines t = t.
Proof.
  induction t as [| c r IH]; [done |].
  intros [Hc Hr]%not_elem_of_cons. simpl.
  replace (c =? 13) with false by (symmetry; apply Z.eqb_neq; lia).
  by rewrite IH.
Qed.

Lemma universal_newlines_crlf (t : text) : 13 ∉ t -> universal_newlines (crlf t) = t.
Proof.
  induction t as [| c r IH]; [done |].
  intros [Hc Hr]%not_elem_of_cons.
  change (crlf (c :: r)) with ((if c =? 10 then [13; 10] else [c]) ++ crlf r).
  destruct (c =? 10) eqn:E.
  - apply Z.eqb_eq in E as ->. simpl. by rewrite IH.
  - simpl. replace (c =? 13) with false by (symmetry; apply Z.eqb_neq; lia).
    by rewrite IH.
Qed.

Lemma byte_to_Z_cr (b : byte) : byte_to_Z b = 13 -> b = x0d.
Proof. destruct b; vm_compute; (reflexivity || discriminate). Qed.

Lemma byte_eqb_lf (b : byte) : Byte.eqb b x0a = (byte_to_Z b =? 10).
Proof. destruct b; reflexivity. Qed.

Lemma bytes_no_cr (content : list byte) :
  x0d ∉ content -> 13 ∉ map byte_to_Z content.
Proof.
  intros Hnot Hin. apply list_elem_of_fmap in Hin as (b & Hb & Hin).
  apply Hnot. by rewrite <- (byte_to_Z_cr b).
Qed.

Lemma dos_line_endings_octets (content : list byte) :
  map byte_to_Z (dos_line_endings content) = crlf (map byte_to_Z content).
Proof.
  induction content as [| b r IH]; [done |].
  change (dos_line_endings (b :: r))
    with ((if Byte.eqb b x0a then [x0d; x0a] else [b]) ++ dos_line_endings r).
  change (crlf (map byte_to_Z (b :: r)))
    with ((if byte_to_Z b =? 10 then [13; 10] else [byte_to_Z b]) ++ crlf (map byte_to_Z r)).
  rewrite map_app, IH, byte_eqb_lf. by destruct (byte_to_Z b =? 10).
Qed.

Section ChecksumExtras.

Context {Command Rule : Type}.

Implicit Types (w : World Command Rule) (module : MigrationModule).

(** X9. For a location that names a file, the checksum service leaves the
    store as it is and returns a digest exactly when the file's octets are
    UTF-8, and raises UnicodeDecodeError exactly when they are not. Encoding
    the text that was read never fails. *)
Theorem calculate_migration_checksum_outcomes w module (content : list byte) :
  files w !! location module = Some content ->
  exists r,
    calculate_migration_checksum module w = (r, w)
    /\ ((exists digest, r = Ok digest)
        <-> is_Some (utf8_decode (map byte_to_Z content)))
    /\ (r = Raise UnicodeDecodeError
        <-> utf8_decode (map byte_to_Z content) = None)
    /\ r <> Raise UnicodeEncodeError.
Proof.
  intros Hfile. unfold calculate_migration_checksum. rewrite Hfile.
  destruct (read_text content) as [file_data |] eqn:Hread.
  - destruct (read_text_encodable _ _ Hread) as [encoded ->].
    assert (Hdec : is_Some (utf8_decode (map byte_to_Z content))).
    { unfold read_text in Hread.
      destruct (utf8_decode (map byte_to_Z content)); [by eexists | discriminate]. }
    eexists. split; [reflexivity |].
    split; [split; [done | intros _; by eexists] |].
    split; [| discriminate].
    split; [discriminate | intros E; destruct Hdec; congruence].
  - assert (Hdec : utf8_decode (map byte_to_Z content) = None).
    { unfold read_text in Hread.
      destruct (utf8_decode (map byte_to_Z content)); [discriminate | done]. }
    eexists. split; [reflexivity |].
    split; [split; [intros [? [=]] | intros [? E]; congruence] |].
    split; [done | discriminate].
Qed.

(** X10. For a file that is UTF-8 and holds no carriage return, the checksum
    is the MD5 digest of the file's own octets: decoding and encoding them
    again gives the same octets. *)
Theorem calculate_migration_checksum_raw w module (content : list byte) :
  files w !! location module = Some content ->
  is_Some (utf8_decode (map byte_to_Z content)) ->
  x0d ∉ content ->
  calculate_migration_checksum module w
    = (Ok (md5_hexdigest (map byte_to_Z content)), w).
Proof.
  intros Hfile [t Ht] Hcr. unfold calculate_migration_checksum, read_text.
  rewrite Hfile, Ht. simpl.
  pose proof (utf8_decode_text _ _ Ht) as Htext.
  rewrite universal_newlines_no_cr
    by (apply (utf8_text_no_cr _ _ Htext), bytes_no_cr, Hcr).
  by rewrite (utf8_text_encode _ _ Htext).
Qed.

(** X11. Converting a file without carriage returns to DOS line endings does
    not change what the checksum service returns for it: the same digest, or
    the same error. *)
Theorem calculate_migration_checksum_dos w w' module module' (content : list byte) :
  files w !! location module = Some content ->
  files w' !! location module' = Some (dos_line_endings content) ->
  x0d ∉ content ->
  fst (calculate_migration_checksum module' w')
    = fst (calculate_migration_checksum module w).
Proof.
  intros Hfile Hfile' Hcr. unfold calculate_migration_checksum, read_text.
  rewrite Hfile, Hfile', dos_line_endings_octets.
  pose proof (bytes_no_cr _ Hcr) as Hcr'.
  destruct (utf8_decode (map byte_to_Z content)) as [t |] eqn:Ht.
  - pose proof (utf8_decode_text _ _ Ht) as Htext.
    rewrite (utf8_text_decode _ _ (utf8_text_crlf _ _ Htext)). simpl.
    rewrite universal_newlines_crlf, universal_newlines_no_cr
      by (by apply (utf8_text_no_cr _ _ Htext)).
    by destruct (utf8_encode t).
  - destruct (utf8_decode (crlf (map byte_to_Z content))) as [t' |] eqn:Ht'; [| done].
    exfalso. apply utf8_decode_text, utf8_text_without_cr, utf8_text_decode in Ht'.
    rewrite without_cr_crlf in Ht' by done. congruence.
Qed.

End ChecksumExtras.

Lemma calculate_migration_checksum_outcomes_witness :
  calculate_migration_checksum (mkModule "latin1.py")
    (mkWorld (Command := unit) (Rule := unit) ∅ {[ "latin1.py" := [x63; xe9] ]} [])
  = (Raise UnicodeDecodeError, mkWorld ∅ {[ "latin1.py" := [x63; xe9] ]} []).
Proof.
  destruct (calculate_migration_checksum_outcomes
              (mkWorld (Command := unit) (Rule := unit) ∅ {[ "latin1.py" := [x63; xe9] ]} [])
              (mkModule "latin1.py") [x63; xe9])
    as (r & Hrun & _ & Hdecode & _).
  - vm_compute. reflexivity.
  - rewrite Hrun. f_equal. apply Hdecode. vm_compute. reflexivity.
Defined.

Lemma calculate_migration_checksum_raw_witness :
  calculate_migration_checksum (mkModule "001_m.py")
    (mkWorld (Command := unit) (Rule := unit) ∅
       {[ "001_m.py" := bytes_of_string "x = 1" ++ [x0a] ]} [])
  = (Ok (md5_hexdigest (map byte_to_Z (bytes_of_string "x = 1" ++ [x0a]))),
     mkWorld ∅ {[ "001_m.py" := bytes_of_string "x = 1" ++ [x0a] ]} []).
Proof.
  apply calculate_migration_checksum_raw.
  - vm_compute. reflexivity.
  - vm_compute. eexists. reflexivity.
  - intros Hin. repeat (apply elem_of_cons in Hin as [Hin | Hin]; [discriminate |]).
    by apply elem_of_nil in Hin.
Defined.

Lemma calculate_migration_checksum_dos_witness :
  fst (calculate_migration_checksum (mkModule "dos.py")
         (mkWorld (Command := unit) (Rule := unit) ∅
            {[ "dos.py" := dos_line_endings (bytes_of_string "x = 1" ++ [x0a]) ]} []))
  = fst (calculate_migration_checksum (mkModule "unix.py")
           (mkWorld (Command := unit) (Rule := unit) ∅
              {[ "unix.py" := bytes_of_string "x = 1" ++ [x0a] ]} [])).
Proof.
  apply (calculate_migration_checksum_dos _ _ _ _ (bytes_of_string "x = 1" ++ [x0a])).
  - vm_compute. reflexivity.
  - vm_compute. reflexivity.
  - intros Hin. repeat (apply elem_of_cons in Hin as [Hin | Hin]; [discriminate |]).
    by apply elem_of_nil in Hin.
Defined.

(** ** Utilities *)

Lemma string_app_cons (x : ascii) (a b : string) :
  String x a +:+ b = String x (a +:+ b).
Proof. reflexivity. Qed.

Lemma string_app_nil_l (b : string) : "" +:+ b = b.
Proof. reflexivity. Qed.

Ltac unfold_append := repeat (rewrite string_app_cons || rewrite string_app_nil_l).

Lemma string_app_assoc (a b c : string) : (a +:+ b) +:+ c = a +:+ b +:+ c.
Proof. induction a as [| x a IH]; [done |]. unfold_append. by f_equal. Qed.

Lemma string_app_nil_r (a : string) : a +:+ "" = a.
Proof. induction a as [| x a IH]; [done |]. unfold_append. by f_equal. Qed.

Lemma string_app_length (a b : string) :
  String.length (a +:+ b) = (String.length a + String.length b)%nat.
Proof.
  induction a as [| x a IH]; [done |].
  unfold_append. simpl. by f_equal.
Qed.

Lemma startswith_spec (s prefix : string) :
  startswith s prefix = true <-> exists rest, s = prefix +:+ rest.
Proof.
  revert s. induction prefix as [| p ps IH]; intros s; cbn [startswith].
  - split; [intros _; by exists s | by destruct s].
  - destruct s as [| c cs]; cbn [startswith].
    + split; [discriminate | intros [rest [=]]].
    + rewrite andb_true_iff, bool_decide_eq_true, IH. split.
      * intros [-> [rest ->]]. by exists rest.
      * intros [rest E]. rewrite string_app_cons in E. injection E as -> ->.
        split; [done | by exists rest].
Qed.

Lemma endswith_spec (s suffix : string) :
  endswith s suffix = true <-> exists before, s = before +:+ suffix.
Proof.
  induction s as [| c r IH]; cbn [endswith].
  - rewrite orb_false_r, bool_decide_eq_true. split.
    + intros <-. by exists "".
    + intros [[| ? ?] E]; [done | discriminate].
  - rewrite orb_true_iff, bool_decide_eq_true, IH. split.
    + intros [<- | [before ->]]; [by exists "" | by exists (String c before)].
    + intros [[| x before] E]; [by left |].
      rewrite string_app_cons in E. injection E as <- ->. right. by exists before.
Qed.

Lemma rstrip_all_in (chars t : string) : all_in chars t = true -> rstrip chars t = "".
Proof.
  induction t as [| c r IH]; [done |]. simpl.
  intros [Hc Hr]%andb_true_iff. by rewrite IH, Hc.
Qed.

Lemma rstrip_app_all_in (chars s t : string) :
  all_in chars t = true -> rstrip chars (s +:+ t) = rstrip chars s.
Proof.
  intros Ht. induction s as [| c r IH]; unfold_append.
  - by apply rstrip_all_in.
  - cbn [rstrip]. by rewrite IH.
Qed.

Lemma rstrip_length (chars s : string) :
  (String.length (rstrip chars s) <= String.length s)%nat.
Proof.
  induction s as [| c r IH]; simpl; [done |].
  destruct (rstrip chars r); [destruct (contains_char c chars) |]; simpl in *; lia.
Qed.

Lemma rstrip_fixed (chars s : string) :
  rstrip chars s = s <-> ends_in chars s = false.
Proof.
  unfold ends_in. induction s as [| c r IH]; [done |].
  cbn [rstrip]. remember (rstrip chars r) as x eqn:Hx. clear Hx.
  destruct r as [| c' r'].
  - destruct IH as [_ IH]. rewrite (IH eq_refl). simpl.
    destruct (contains_char c chars); split; (done || discriminate).
  - change (last_char (String c (String c' r'))) with (last_char (String c' r')).
    rewrite <- IH. destruct x as [| a x'].
    + destruct (contains_char c chars); split; intros H; simplify_eq.
    + split; [by intros [= -> ->] | by intros ->].
Qed.

Lemma rstrip_shorter (chars s : string) :
  ends_in chars s = true -> (String.length (rstrip chars s) < String.length s)%nat.
Proof.
  intros H. pose proof (rstrip_length chars s) as Hle.
  destruct (decide (String.length (rstrip chars s) = String.length s)) as [E | ]; [| lia].
  exfalso. assert (Hfix : rstrip chars s = s); [| apply rstrip_fixed in Hfix; congruence].
  clear H Hle. induction s as [| c r IH]; [done |].
  cbn [rstrip] in *. pose proof (rstrip_length chars r) as Hr.
  destruct (rstrip chars r) as [| x r'] eqn:Er.
  - destruct (contains_char c chars); simpl in E; [lia |].
    destruct r; [done | simpl in E; lia].
  - simpl in E. f_equal. apply IH. simpl. lia.
Qed.

Section ImportingProperties.

Context {Module Attribute : Type}.
Variable importlib_import_module : string -> loaded Module.
Variable getattr : Module -> string -> loaded Attribute.
Variable load_from_file : string -> string -> loaded Module.

(** X12. For a file named stem.py, import_module imports the module whose
    last name is the stem with every trailing ".", "p" and "y" removed, and
    get_module gives its module that name. The name is the stem itself
    exactly when the stem does not end in one of these three characters;
    otherwise it is shorter. *)
Theorem py_suffix_by_rstrip (module_path directory stem : string) :
  import_module importlib_import_module module_path (Some (stem +:+ ".py"))
    = import_module importlib_import_module
        (module_path +:+ "." +:+ rstrip ".py" stem) None
  /\ get_module load_from_file directory (stem +:+ ".py")
     = load_from_file (rstrip ".py" stem) (path_join directory (stem +:+ ".py"))
  /\ (rstrip ".py" stem = stem <-> ends_in ".py" stem = false)
  /\ (ends_in ".py" stem = true ->
      (String.length (rstrip ".py" stem) < String.length stem)%nat).
Proof.
  unfold import_module, get_module.
  rewrite (rstrip_app_all_in ".py" stem ".py") by reflexivity.
  split; [done |]. split; [done |].
  split; [apply rstrip_fixed | apply rstrip_shorter].
Qed.

Lemma rsplit1_none (sep : ascii) (s : string) :
  rsplit1 sep s = None <-> contains_char sep s = false.
Proof.
  induction s as [| c r IH]; simpl; [done |].
  destruct (rsplit1 sep r) as [[a b] |].
  - split; [discriminate |]. intros [_ H]%orb_false_iff.
    apply IH in H. discriminate.
  - destruct IH as [IH _]. rewrite (IH eq_refl), orb_false_r.
    case_bool_decide; split; (done || discriminate).
Qed.

Lemma rsplit1_last (sep : ascii) (before after : string) :
  contains_char sep after = false ->
  rsplit1 sep (before +:+ String sep after) = Some (before, after).
Proof.
  intros Hafter. induction before as [| c r IH]; unfold_append; cbn [rsplit1].
  - apply rsplit1_none in Hafter. rewrite Hafter.
    by rewrite bool_decide_eq_true_2.
  - by rewrite IH.
Qed.

Lemma rsplit1_some (sep : ascii) (s before after : string) :
  rsplit1 sep s = Some (before, after) ->
  s = before +:+ String sep after /\ contains_char sep after = false.
Proof.
  revert before. induction s as [| c r IH]; intros before; simpl; [discriminate |].
  destruct (rsplit1 sep r) as [[a b] |] eqn:E.
  - intros [= <- <-]. destruct (IH a eq_refl) as [-> Hb]. done.
  - case_bool_decide as Hc; [| discriminate].
    intros [= <- <-]. subst c. split; [done |]. by apply rsplit1_none.
Qed.

(** X13. import_class_from_module splits the path at its last dot: for
    module_name.class_name with a dot-free class name, importlib is asked for
    the module of that name and, when it gives one, getattr for the attribute
    of that name; what either of them raises is raised unchanged. A path
    without any dot ends in ValueError at the unpacking. *)
Theorem import_class_from_module_splits (class_path module_name class_name : string) :
  (contains_char dot class_name = false ->
   import_class_from_module importlib_import_module getattr
     (module_name +:+ "." +:+ class_name)
   = match importlib_import_module module_name with
     | Failed e => Failed e
     | Loaded module => getattr module class_name
     end)
  /\ (contains_char dot class_path = false ->
      import_class_from_module importlib_import_module getattr class_path
      = Failed ValueError)
  /\ (contains_char dot class_path = true ->
      exists before after,
        class_path = before +:+ "." +:+ after
        /\ contains_char dot after = false
        /\ import_class_from_module importlib_import_module getattr class_path
           = import_class_from_module importlib_import_module getattr
               (before +:+ "." +:+ after)
        /\ rsplit1 dot class_path = Some (before, after)).
Proof.
  unfold import_class_from_module. split; [| split].
  - intros Hc. change (module_name +:+ "." +:+ class_name)
      with (module_name +:+ String dot class_name).
    by rewrite rsplit1_last.
  - intros Hc. apply rsplit1_none in Hc. by rewrite Hc.
  - intros Hc. destruct (rsplit1 dot class_path) as [[before after] |] eqn:E.
    + destruct (rsplit1_some _ _ _ _ E) as [-> Hafter].
      exists before, after. split; [done |]. split; [done |]. split; [| done].
      change (before +:+ "." +:+ after) with (before +:+ String dot after).
      by rewrite E.
    + apply rsplit1_none in E. congruence.
Qed.

End ImportingProperties.

Lemma py_suffix_by_rstrip_witness :
  rstrip ".py" "001_create_users" = "001_create_users"
  /\ (String.length (rstrip ".py" "001_copy") < String.length "001_copy")%nat.
Proof.
  pose proof (py_suffix_by_rstrip (Module := unit)
                (fun name => Failed (ModuleNotFoundError name))
                (fun _ _ => Failed ValueError) "migrations" "migrations"
                "001_create_users") as (_ & _ & Hfix & _).
  pose proof (py_suffix_by_rstrip (Module := unit)
                (fun name => Failed (ModuleNotFoundError name))
                (fun _ _ => Failed ValueError) "migrations" "migrations"
                "001_copy") as (_ & _ & _ & Hshort).
  split; [apply Hfix; reflexivity | apply Hshort; reflexivity].
Defined.

Lemma import_class_from_module_splits_witness :
  import_class_from_module (Module := unit) (Attribute := nat)
    (fun name => if bool_decide (name = "pkg.strategies") then Loaded tt
                 else if bool_decide (name = "") then Failed ValueError
                 else Failed (ModuleNotFoundError name))
    (fun _ attr => if bool_decide (attr = "Numerical") then Loaded 7%nat
                   else Failed (MissingAttribute attr))
    "pkg.strategies.Numerical" = Loaded 7%nat
  /\ import_class_from_module (Module := unit) (Attribute := nat)
       (fun name => if bool_decide (name = "pkg.strategies") then Loaded tt
                    else if bool_decide (name = "") then Failed ValueError
                    else Failed (ModuleNotFoundError name))
       (fun _ attr => if bool_decide (attr = "Numerical") then Loaded 7%nat
                      else Failed (MissingAttribute attr))
       "Numerical" = Failed ValueError.
Proof.
  pose proof (import_class_from_module_splits (Module := unit) (Attribute := nat)
    (fun name => if bool_decide (name = "pkg.strategies") then Loaded tt
                 else if bool_decide (name = "") then Failed ValueError
                 else Failed (ModuleNotFoundError name))
    (fun _ attr => if bool_decide (attr = "Numerical") then Loaded 7%nat
                   else Failed (MissingAttribute attr))
    "Numerical" "pkg.strategies" "Numerical") as (Hlast & Hnone & _).
  split; [exact (Hlast eq_refl) | exact (Hnone eq_refl)].
Defined.

Section FileCheckProperties.

Context {Command Rule : Type}.

(** X14. is_valid_migration_filename never changes the store, and answers
    True exactly when the directory joined with the filename names a file,
    the filename ends in ".py", and it does not start with two
    underscores. *)
Theorem is_valid_migration_filename_iff (w : World Command Rule)
    (directory filename : string) :
  exists b : bool,
    is_valid_migration_filename directory filename w = (Ok b, w)
    /\ (b = true <->
        is_Some (files w !! path_join directory filename)
        /\ (exists stem, filename = stem +:+ ".py")
        /\ ~ (exists rest, filename = "__" +:+ rest)).
Proof.
  eexists. split; [reflexivity |].
  rewrite !andb_true_iff, bool_decide_eq_true, negb_true_iff, endswith_spec.
  rewrite <- not_true_iff_false, startswith_spec. tauto.
Qed.

End FileCheckProperties.

Lemma contains_char_app (c : ascii) (a b : string) :
  contains_char c (a +:+ b) = contains_char c a || contains_char c b.
Proof.
  induction a as [| x a IH]; [done |].
  unfold_append. cbn [contains_char]. by rewrite IH, orb_assoc.
Qed.

Lemma startswith_absent (c : ascii) (tail s : string) :
  contains_char c s = false -> startswith s (String c tail) = false.
Proof.
  destruct s as [| x r]; [done |]. cbn [contains_char startswith].
  intros [Hx _]%orb_false_iff. apply bool_decide_eq_false in Hx.
  rewrite bool_decide_eq_false_2; [done | congruence].
Qed.

Lemma replace_from_keeps_absent (c : ascii) (old new : string) :
  contains_char c new = false ->
  forall (s : string) (skip : nat),
    contains_char c s = false -> contains_char c (replace_from old new skip s) = false.
Proof.
  intros Hnew. induction s as [| x r IH]; intros skip; [done |].
  cbn [contains_char replace_from]. intros [Hx Hr]%orb_false_iff.
  destruct skip as [| k]; [| by apply IH].
  destruct (startswith (String x r) old).
  - rewrite contains_char_app, Hnew. by apply IH.
  - cbn [contains_char]. rewrite Hx. by apply IH.
Qed.

Lemma startswith_nil (s : string) : startswith s "" = true.
Proof. by destruct s. Qed.

Lemma replace_from_char_removes (c : ascii) (new s : string) :
  contains_char c new = false ->
  contains_char c (replace_from (String c "") new 0 s) = false.
Proof.
  intros Hnew. induction s as [| x r IH]; [done |].
  cbn [replace_from startswith String.length Nat.sub].
  rewrite startswith_nil, andb_true_r.
  case_bool_decide as Hx.
  - by rewrite contains_char_app, Hnew.
  - cbn [contains_char]. rewrite IH, orb_false_r.
    apply bool_decide_eq_false. congruence.
Qed.

Lemma replace_from_head_absent (c : ascii) (tail new s : string) :
  contains_char c s = false -> replace_from (String c tail) new 0 s = s.
Proof.
  induction s as [| x r IH]; [done |]. intros H.
  cbn [replace_from]. rewrite (startswith_absent _ _ _ H).
  cbn [contains_char] in H. apply orb_false_iff in H as [_ H]. by rewrite IH.
Qed.

Lemma drop_last_keeps_absent (c : ascii) (s : string) :
  contains_char c s = false -> contains_char c (drop_last s) = false.
Proof.
  induction s as [| x r IH]; [done |]. cbn [contains_char].
  intros [Hx Hr]%orb_false_iff. destruct r as [| y r']; [done |].
  change (drop_last (String x (String y r'))) with (String x (drop_last (String y r'))).
  cbn [contains_char]. rewrite Hx. by apply IH.
Qed.

(** X15. The result of replace_slashes_with_dot holds no slash and no
    backslash, whatever the input. *)
Theorem replace_slashes_with_dot_clean (string_to_replace : string) :
  contains_char slash (replace_slashes_with_dot string_to_replace) = false
  /\ contains_char backslash (replace_slashes_with_dot string_to_replace) = false.
Proof.
  unfold replace_slashes_with_dot, replace.
  set (s2 := replace_from "/" "." 0 (replace_from "//" "." 0 string_to_replace)).
  set (s3 := replace_from (String backslash (String backslash "")) "." 0 s2).
  set (s4 := replace_from (String backslash "") "." 0 s3).
  assert (H2 : contains_char slash s2 = false)
    by (by apply (replace_from_char_removes slash)).
  assert (H3 : contains_char slash s3 = false)
    by (by apply replace_from_keeps_absent).
  assert (H4 : contains_char slash s4 = false)
    by (by apply replace_from_keeps_absent).
  assert (H4' : contains_char backslash s4 = false)
    by (by apply (replace_from_char_removes backslash)).
  destruct (endswith s4 "."); [| done].
  split; by apply drop_last_keeps_absent.
Qed.

(** X16. On a string without slashes and backslashes,
    replace_slashes_with_dot only drops one trailing dot, if there is one;
    a string that has none of the three is returned as it is. *)
Theorem replace_slashes_with_dot_plain (string_to_replace : string) :
  contains_char slash string_to_replace = false ->
  contains_char backslash string_to_replace = false ->
  replace_slashes_with_dot string_to_replace
    = (if endswith string_to_replace "." then drop_last string_to_replace
       else string_to_replace)
  /\ (ends_in "." string_to_replace = false ->
      replace_slashes_with_dot string_to_replace = string_to_replace).
Proof.
  intros Hs Hb. unfold replace_slashes_with_dot, replace.
  rewrite (replace_from_head_absent slash "/") by done.
  rewrite (replace_from_head_absent slash "") by done.
  rewrite (replace_from_head_absent backslash (String backslash "")) by done.
  rewrite (replace_from_head_absent backslash "") by done.
  split; [done |].
  intros Hend. destruct (endswith string_to_replace ".") eqn:E; [| done].
  exfalso. apply endswith_spec in E as [before ->].
  revert Hend. clear. unfold ends_in.
  induction before as [| x [| y r] IH]; try done.
Qed.

Lemma replace_slashes_with_dot_plain_witness :
  replace_slashes_with_dot "migrations.sub." = "migrations.sub"
  /\ replace_slashes_with_dot "migrations.sub" = "migrations.sub".
Proof.
  split.
  - apply (replace_slashes_with_dot_plain "migrations.sub."); reflexivity.
  - apply (replace_slashes_with_dot_plain "migrations.sub"); reflexivity.
Defined.

Lemma replace_from_no_occurrence (old new s : string) :
  occurs old s = false -> replace_from old new 0 s = s.
Proof.
  induction s as [| x r IH]; [done |].
  cbn [occurs replace_from]. intros [Hhead Hrest]%orb_false_iff.
  by rewrite Hhead, IH.
Qed.

Lemma replace_from_char_app (c : ascii) (new a b : string) :
  replace_from (String c "") new 0 (a +:+ b)
  = replace_from (String c "") new 0 a +:+ replace_from (String c "") new 0 b.
Proof.
  induction a as [| x a IH]; [done |].
  unfold_append. cbn [replace_from startswith String.length Nat.sub].
  rewrite !startswith_nil, !andb_true_r.
  case_bool_decide; unfold_append; rewrite IH; [| done].
  by rewrite string_app_assoc.
Qed.

Lemma join_with_cons (sep part : string) (rest : list string) :
  rest <> [] -> join_with sep (part :: rest) = part +:+ sep +:+ join_with sep rest.
Proof. by destruct rest. Qed.

Lemma snoc_not_nil (parts : list string) (final : string) : parts ++ [final] <> [].
Proof. by destruct parts. Qed.

Lemma startswith_head (c : ascii) (tail part t : string) :
  part <> "" -> contains_char c part = false ->
  startswith (part +:+ t) (String c tail) = false.
Proof.
  destruct part as [| x p]; [done |]. intros _.
  unfold_append. cbn [contains_char startswith].
  intros [Hx _]%orb_false_iff. apply bool_decide_eq_false in Hx.
  rewrite bool_decide_eq_false_2; [done | congruence].
Qed.

Lemma join_head_not_slash (parts : list string) (final : string) :
  Forall component parts -> contains_char slash final = false ->
  startswith (join_with "/" (parts ++ [final])) "/" = false.
Proof.
  intros Hparts Hfinal. destruct Hparts as [| part rest (Hne & Hs & _) _].
  - by apply startswith_absent.
  - change ((part :: rest) ++ [final]) with (part :: (rest ++ [final])).
    rewrite join_with_cons by apply snoc_not_nil.
    by apply startswith_head.
Qed.

Lemma no_double_slash_before (part t : string) :
  contains_char slash part = false ->
  occurs "//" t = false -> startswith t "/" = false ->
  occurs "//" (part +:+ "/" +:+ t) = false.
Proof.
  intros Hpart Ht Hhead. induction part as [| x p IH].
  - change ("" +:+ "/" +:+ t) with (String slash t).
    cbn [occurs startswith]. rewrite Ht, orb_false_r.
    rewrite bool_decide_eq_true_2 by done.
    destruct t as [| y t']; [done |].
    cbn [startswith] in *. by rewrite startswith_nil, andb_true_r in *.
  - cbn [contains_char] in Hpart. apply orb_false_iff in Hpart as [Hx Hp].
    unfold_append. cbn [occurs startswith].
    apply bool_decide_eq_false in Hx.
    rewrite bool_decide_eq_false_2 by (intros <-; by apply Hx). by apply IH.
Qed.

Lemma join_no_double_slash (parts : list string) (final : string) :
  Forall component parts -> contains_char slash final = false ->
  occurs "//" (join_with "/" (parts ++ [final])) = false.
Proof.
  intros Hparts Hfinal. induction Hparts as [| part rest (Hne & Hs & Hb) Hrest IH].
  - simpl. destruct final as [| x r]; [done |].
    cbn [occurs]. rewrite (startswith_absent slash "/") by done.
    cbn [contains_char] in Hfinal. apply orb_false_iff in Hfinal as [_ Hr].
    clear -Hr. induction r as [| y r IH]; [done |].
    cbn [occurs]. rewrite (startswith_absent slash "/") by done.
    cbn [contains_char] in Hr. apply orb_false_iff in Hr as [_ Hr]. by apply IH.
  - change ((part :: rest) ++ [final]) with (part :: (rest ++ [final])).
    rewrite join_with_cons by apply snoc_not_nil.
    apply no_double_slash_before; [done | done | by apply join_head_not_slash].
Qed.

Lemma join_slashes_to_dots (parts : list string) (final : string) :
  Forall component parts -> contains_char slash final = false ->
  replace_from "/" "." 0 (join_with "/" (parts ++ [final]))
  = join_with "." (parts ++ [final]).
Proof.
  intros Hparts Hfinal. induction Hparts as [| part rest (Hne & Hs & Hb) Hrest IH].
  - simpl. by apply (replace_from_head_absent slash "").
  - change ((part :: rest) ++ [final]) with (part :: (rest ++ [final])).
    rewrite !join_with_cons by apply snoc_not_nil.
    rewrite !(replace_from_char_app slash).
    change (String slash "") with "/". rewrite IH.
    by rewrite (replace_from_head_absent slash "") by done.
Qed.

Lemma join_dots_no_backslash (parts : list string) (final : string) :
  Forall component parts -> contains_char backslash final = false ->
  contains_char backslash (join_with "." (parts ++ [final])) = false.
Proof.
  intros Hparts Hfinal. induction Hparts as [| part rest (Hne & Hs & Hb) Hrest IH].
  - done.
  - change ((part :: rest) ++ [final]) with (part :: (rest ++ [final])).
    rewrite join_with_cons by apply snoc_not_nil.
    by rewrite !contains_char_app, Hb, IH.
Qed.

Lemma last_char_app (a b : string) : b <> "" -> last_char (a +:+ b) = last_char b.
Proof.
  intros Hb. induction a as [| x a IH]; [done |].
  unfold_append. destruct (a +:+ b) as [| y r] eqn:E.
  - destruct a; [done | discriminate].
  - exact IH.
Qed.

Lemma endswith_dot_last (s : string) :
  endswith s "." = true <-> last_char s = Some dot.
Proof.
  rewrite endswith_spec. split.
  - intros [before ->]. by rewrite last_char_app.
  - induction s as [| x [| y r] IH]; [done | |].
    + intros [= ->]. by exists "".
    + intros H. destruct (IH H) as [before ->]. by exists (String x before).
Qed.

Lemma drop_last_app_char (s : string) (c : ascii) : drop_last (s +:+ String c "") = s.
Proof.
  induction s as [| x s IH]; [done |].
  unfold_append. destruct (s +:+ String c "") as [| y r] eqn:E.
  - by destruct s.
  - change (drop_last (String x (String y r))) with (String x (drop_last (String y r))).
    by rewrite IH.
Qed.

(** X17. A path of components separated by single slashes, each component
    before the last one non-empty and free of slashes and backslashes, the
    last one free of them too: replace_slashes_with_dot joins the components
    with dots and then drops one trailing dot. So a/b/c gives a.b.c when c
    is not empty and does not end in a dot, and the path with a trailing
    slash a/b/ gives a.b. *)
Theorem replace_slashes_with_dot_components (parts : list string) (final : string) :
  Forall component parts ->
  contains_char slash final = false ->
  contains_char backslash final = false ->
  let dotted := join_with "." (parts ++ [final]) in
  replace_slashes_with_dot (join_with "/" (parts ++ [final]))
    = (if endswith dotted "." then drop_last dotted else dotted)
  /\ (final <> "" -> ends_in "." final = false ->
      replace_slashes_with_dot (join_with "/" (parts ++ [final])) = dotted)
  /\ (final = "" -> parts <> [] ->
      replace_slashes_with_dot (join_with "/" (parts ++ [final]))
      = join_with "." parts).
Proof.
  intros Hparts Hs Hb dotted.
  assert (Hrun : replace_slashes_with_dot (join_with "/" (parts ++ [final]))
                 = (if endswith dotted "." then drop_last dotted else dotted)).
  { unfold replace_slashes_with_dot, replace.
    rewrite (replace_from_no_occurrence "//") by (by apply join_no_double_slash).
    rewrite join_slashes_to_dots by done. fold dotted.
    assert (Hd : contains_char backslash dotted = false)
      by (by apply join_dots_no_backslash).
    rewrite (replace_from_head_absent backslash (String backslash "")) by done.
    by rewrite (replace_from_head_absent backslash "") by done. }
  split; [exact Hrun |]. split.
  - intros Hne Hend. rewrite Hrun.
    destruct (endswith dotted ".") eqn:E; [| done].
    exfalso. apply endswith_dot_last in E. unfold ends_in in Hend.
    assert (Hlast : last_char dotted = last_char final).
    { unfold dotted. clear -Hne. induction parts as [| part rest IH]; [done |].
      change ((part :: rest) ++ [final]) with (part :: (rest ++ [final])).
      rewrite join_with_cons by apply snoc_not_nil.
      rewrite last_char_app; [| by destruct (join_with "." (rest ++ [final]))].
      rewrite last_char_app; [exact IH |].
      destruct rest as [| q rest']; [done |].
      change ((q :: rest') ++ [final]) with (q :: (rest' ++ [final])).
      rewrite join_with_cons by apply snoc_not_nil.
      intros H. destruct q; [| discriminate]. discriminate. }
    rewrite Hlast in E. by rewrite E in Hend.
  - intros -> Hne. rewrite Hrun.
    assert (Hd : dotted = join_with "." parts +:+ ".").
    { unfold dotted. clear -Hne. induction parts as [| part rest IH]; [done |].
      destruct rest as [| q rest'].
      - simpl. by rewrite string_app_nil_r.
      - change ((part :: q :: rest') ++ [""]) with (part :: ((q :: rest') ++ [""])).
        rewrite !join_with_cons by done.
        rewrite IH by done. by rewrite !string_app_assoc. }
    rewrite Hd.
    replace (endswith (join_with "." parts +:+ ".") ".") with true
      by (symmetry; apply endswith_spec; by eexists).
    apply drop_last_app_char.
Qed.

Lemma replace_slashes_with_dot_components_witness :
  replace_slashes_with_dot "migrations/versions/001_create" = "migrations.versions.001_create"
  /\ replace_slashes_with_dot "migrations/versions/" = "migrations.versions".
Proof.
  pose proof (replace_slashes_with_dot_components ["migrations"; "versions"] "001_create")
    as (_ & Hfull & _); [by repeat constructor | reflexivity | reflexivity |].
  pose proof (replace_slashes_with_dot_components ["migrations"; "versions"] "")
    as (_ & _ & Htrail); [by repeat constructor | reflexivity | reflexivity |].
  split; [by apply Hfull | by apply Htrail].
Defined.
